(** * av_encode_video1: the transcode driver

    A shallow embedding of [main] of [av_encode_video1.cpp]. The program
    is a single function that calls into a codec/container library; the
    library is not part of the program, so every library call whose result
    the program inspects is a field of the record [Library], and every
    call the program makes is recorded, in order, in a trace of [Event]s
    together with what is written to [std::cout] and [std::cerr]. *)

From Stdlib Require Import ZArith List String Ascii Bool Lia.
Import ListNotations.
Local Open Scope string_scope.
Local Open Scope list_scope.
Local Open Scope Z_scope.

Set Implicit Arguments.

(** ** Data the program touches *)

Inductive AVMediaType : Type :=
| AVMEDIA_TYPE_UNKNOWN
| AVMEDIA_TYPE_VIDEO
| AVMEDIA_TYPE_AUDIO
| AVMEDIA_TYPE_DATA
| AVMEDIA_TYPE_SUBTITLE
| AVMEDIA_TYPE_ATTACHMENT.

Definition AVMediaType_eqb (a b : AVMediaType) : bool :=
  match a, b with
  | AVMEDIA_TYPE_UNKNOWN, AVMEDIA_TYPE_UNKNOWN
  | AVMEDIA_TYPE_VIDEO, AVMEDIA_TYPE_VIDEO
  | AVMEDIA_TYPE_AUDIO, AVMEDIA_TYPE_AUDIO
  | AVMEDIA_TYPE_DATA, AVMEDIA_TYPE_DATA
  | AVMEDIA_TYPE_SUBTITLE, AVMEDIA_TYPE_SUBTITLE
  | AVMEDIA_TYPE_ATTACHMENT, AVMEDIA_TYPE_ATTACHMENT => true
  | _, _ => false
  end.

Record AVRational : Type := mkRational { num : Z; den : Z }.

Record AVCodecParameters : Type := mkCodecParameters {
  codec_type : AVMediaType;
  codec_id : Z;
  par_bit_rate : Z;
  par_width : Z;
  par_height : Z
}.

Record AVStream : Type := mkStream {
  codecpar : AVCodecParameters;
  time_base : AVRational
}.

Record AVPacket : Type := mkPacket {
  stream_index : Z;
  pts : Z;
  dts : Z;
  data : list Z
}.

Record AVFrame : Type := mkFrame {
  frame_width : Z;
  frame_height : Z;
  frame_pts : Z;
  frame_data : list Z
}.

Record AVCodec : Type := mkCodec { id : Z; name : string }.

(** The encoder session. [queue] holds the packets that are ready for
    [avcodec_receive_packet]; [held] is the encoder's private buffer of
    submitted frames, which only the library reads or writes. *)
Record AVCodecContext : Type := mkCodecContext {
  codec : AVCodec;
  bit_rate : Z;
  width : Z;
  height : Z;
  queue : list AVPacket;
  held : list AVFrame
}.

Definition set_bit_rate (c : AVCodecContext) (b : Z) : AVCodecContext :=
  mkCodecContext (codec c) b (width c) (height c) (queue c) (held c).

Definition set_queue (c : AVCodecContext) (q : list AVPacket) : AVCodecContext :=
  mkCodecContext (codec c) (bit_rate c) (width c) (height c) q (held c).

Inductive AVIOContext : Type :=
| avio_memory (buffer_size : Z)
| avio_file (url : string) (flags : Z).

(** A format context: [demux] is the sequence of packets [av_read_frame]
    will still deliver (empty for an output context). *)
Record AVFormatContext : Type := mkFormatContext {
  streams : list AVStream;
  oformat_flags : Z;
  pb : option AVIOContext;
  demux : list AVPacket
}.

Definition nb_streams (c : AVFormatContext) : Z := Z.of_nat (List.length (streams c)).

Definition set_pb (c : AVFormatContext) (io : option AVIOContext) : AVFormatContext :=
  mkFormatContext (streams c) (oformat_flags c) io (demux c).

Record SwsContext : Type := mkSws {
  srcW : Z; srcH : Z; dstW : Z; dstH : Z; dstFormat : Z; sws_flags : Z
}.

Definition AVFMT_NOFILE : Z := 1.
Definition AVIO_FLAG_WRITE : Z := 2.
Definition AV_PIX_FMT_YUV420P : Z := 0.
Definition SWS_BILINEAR : Z := 2.
Definition AVERROR_EAGAIN : Z := -11.

(** [c->streams[i]]: the slot of the stream array at index [i]. An index
    outside the array has no element. *)
Definition stream_at (c : AVFormatContext) (i : Z) : option AVStream :=
  if i <? 0 then None else nth_error (streams c) (Z.to_nat i).

(** ** 32-bit [int] arithmetic *)

Definition INT_MIN : Z := - 2147483648.
Definition INT_MAX : Z := 2147483647.

Definition wrap_int (z : Z) : Z := (z + 2147483648) mod 4294967296 - 2147483648.

(** [a * b] on [int]s; a product outside the range of [int] wraps around. *)
Definition int_mul (a b : Z) : Z := wrap_int (a * b).

(** ** [std::stoi] with its default base 10 *)

Inductive exception : Type :=
| std_invalid_argument
| std_out_of_range.

Definition isspace (c : ascii) : bool :=
  let n := nat_of_ascii c in
  Nat.eqb n 32 || (Nat.leb 9 n && Nat.leb n 13).

Definition digit_of (c : ascii) : option Z :=
  let n := nat_of_ascii c in
  if Nat.leb 48 n && Nat.leb n 57 then Some (Z.of_nat n - 48) else None.

Fixpoint skip_spaces (s : string) : string :=
  match s with
  | String c r => if isspace c then skip_spaces r else s
  | EmptyString => s
  end.

(** The longest prefix of decimal digits, read as a number; [None] when
    the string does not start with a digit. *)
Fixpoint read_digits (s : string) (acc : option Z) : option Z :=
  match s with
  | String c r =>
      match digit_of c with
      | Some d =>
          read_digits r (Some (10 * match acc with Some a => a | None => 0 end + d))
      | None => acc
      end
  | EmptyString => acc
  end.

Definition stoi (s : string) : exception + Z :=
  let s1 := skip_spaces s in
  let '(negative, s2) :=
    match s1 with
    | String "-"%char r => (true, r)
    | String "+"%char r => (false, r)
    | _ => (false, s1)
    end in
  match read_digits s2 None with
  | None => inl std_invalid_argument
  | Some v =>
      let v' := if negative then - v else v in
      if (INT_MIN <=? v') && (v' <=? INT_MAX) then inr v'
      else inl std_out_of_range
  end.

(** ** The library interface

    One field per library call whose result steers the program. A
    pointer result is an [option] ([None] is [nullptr]); a status result
    is the [int] the call returns. *)

Record Library : Type := mkLibrary {
  avformat_open_input : string -> Z * AVFormatContext;
  avformat_find_stream_info : AVFormatContext -> Z * AVFormatContext;
  avcodec_find_decoder : Z -> option AVCodec;
  avcodec_alloc_context3 : AVCodec -> option AVCodecContext;
  avcodec_parameters_to_context :
    AVCodecContext -> AVCodecParameters -> Z * AVCodecContext;
  avcodec_open2 : AVCodecContext -> AVCodec -> Z * AVCodecContext;
  (* status and [oformat->flags] of the context it allocates *)
  avformat_alloc_output_context2 : string -> string -> Z * Z;
  av_find_best_stream : AVFormatContext -> AVMediaType -> Z;
  av_packet_alloc : option AVPacket;
  (* the n-th call of [av_frame_alloc] *)
  av_frame_alloc : nat -> option AVFrame;
  sws_getContext : Z -> Z -> Z -> Z -> Z -> Z -> option SwsContext;
  avio_alloc_context : Z -> option AVIOContext;
  avio_open : string -> Z -> Z * option AVIOContext;
  avformat_write_header : AVFormatContext -> Z;
  (* [None] is a null frame *)
  avcodec_send_frame : AVCodecContext -> option AVFrame -> Z * AVCodecContext;
  av_packet_rescale_ts : AVPacket -> AVStream -> AVStream -> AVPacket
}.

(** [avcodec_receive_packet]: hands out the head of the ready queue, or
    reports that nothing is ready. *)
Definition avcodec_receive_packet (c : AVCodecContext)
  : Z * option AVPacket * AVCodecContext :=
  match queue c with
  | [] => (AVERROR_EAGAIN, None, c)
  | p :: q => (0, Some p, set_queue c q)
  end.

(** ** Observable behaviour *)

Inductive Event : Type :=
| Ev_cout (line : string)
| Ev_cerr (line : string)
| Ev_av_register_all
| Ev_avformat_open_input (file : string) (rc : Z)
| Ev_avformat_find_stream_info (rc : Z)
| Ev_avcodec_find_decoder (codec_id : Z)
| Ev_avcodec_alloc_context3
| Ev_avcodec_parameters_to_context (rc : Z)
| Ev_avcodec_open2 (ctx : AVCodecContext) (rc : Z)
| Ev_avformat_alloc_output_context2 (format file : string) (rc : Z)
| Ev_av_find_best_stream (ctx : AVFormatContext) (type : AVMediaType) (ret : Z)
| Ev_av_packet_alloc
| Ev_av_frame_alloc
| Ev_sws_getContext (srcW srcH dstW dstH dstFormat flags : Z)
| Ev_av_malloc (size : Z)
| Ev_avio_alloc_context (buffer_size : Z)
| Ev_avio_open (file : string) (rc : Z)
| Ev_avformat_write_header (ctx : AVFormatContext) (rc : Z)
| Ev_av_read_frame (pkt : option AVPacket)
| Ev_avcodec_send_frame (frame : option AVFrame) (rc : Z)
| Ev_avcodec_receive_packet (pkt : option AVPacket)
| Ev_av_packet_rescale_ts (pkt : AVPacket) (src dst : AVStream)
| Ev_av_interleaved_write_frame (pkt : AVPacket)
| Ev_av_packet_unref
| Ev_av_write_trailer
| Ev_avio_context_free
| Ev_avio_closep
| Ev_av_frame_free (frame : AVFrame)
| Ev_sws_freeContext
| Ev_av_packet_free
| Ev_avcodec_free_context
| Ev_avcodec_parameters_destroy
| Ev_avformat_close_input.

(** How the process ends: [return n] from [main], an exception nobody
    catches, or the use of something that does not exist (an element
    outside its array, the string behind a null pointer), after which
    the behaviour of the program is undefined. *)
Inductive Outcome : Type :=
| Returned (status : Z)
| Uncaught (e : exception)
| Undefined.

Inductive Step (A : Type) : Type :=
| Next (a : A)
| Stop (o : Outcome).
Arguments Stop {A} o.

(** A computation yields the events it performed and either a value to
    go on with or the end of the process. *)
Definition Run (A : Type) : Type := (list Event * Step A)%type.

Definition ret {A} (a : A) : Run A := ([], Next a).

Definition bind {A B} (m : Run A) (k : A -> Run B) : Run B :=
  let (t, s) := m in
  match s with
  | Next a => let (t', s') := k a in (t ++ t', s')
  | Stop o => (t, Stop o)
  end.

Notation "x <- c ;; k" := (bind c (fun x => k))
  (at level 61, c at next level, right associativity).
Notation "c ;; k" := (bind c (fun _ => k))
  (at level 61, right associativity).

Definition call (e : Event) : Run unit := ([e], Next tt).
Definition cout (line : string) : Run unit := call (Ev_cout line).
Definition cerr (line : string) : Run unit := call (Ev_cerr line).
Definition return_ {A} (status : Z) : Run A := ([], Stop (Returned status)).

(** [if (c) { std::cerr << msg << std::endl; return -1; }] *)
Definition fail_if (c : bool) (msg : string) : Run unit :=
  if c then cerr msg ;; return_ (-1) else ret tt.

Definition throwing {A} (r : exception + A) : Run A :=
  match r with
  | inl e => ([], Stop (Uncaught e))
  | inr a => ret a
  end.

Definition deref {A} (o : option A) : Run A :=
  match o with
  | Some a => ret a
  | None => ([], Stop Undefined)
  end.

(** ** [main] *)

(** The locals of [main] that are live once setup is over. *)
Record Pipeline : Type := mkPipeline {
  input_format_context : AVFormatContext;
  video_stream_index : Z;
  video_codecpar : AVCodecParameters;
  video_encoder_ctx : AVCodecContext;
  output_format_context : AVFormatContext;
  video_stream_id : Z;
  encoder_packet : AVPacket;
  input_frame : AVFrame;
  sws_context : SwsContext;
  output_frame : AVFrame
}.

(** [for (int i = 0; i < nb_streams; ++i) if (... == AVMEDIA_TYPE_VIDEO)
    { video_stream_index = i; break; }], starting from [-1]. *)
Fixpoint find_video_stream (ss : list AVStream) (i : Z) : Z :=
  match ss with
  | [] => -1
  | s :: rest =>
      if AVMediaType_eqb (codec_type (codecpar s)) AVMEDIA_TYPE_VIDEO then i
      else find_video_stream rest (i + 1)
  end.

(** Lines 9-137: argument handling and one-time setup. *)
Definition main_setup (lib : Library) (argv : list string) : Run Pipeline :=
  if negb (Z.of_nat (List.length argv) =? 4) then
    (* with no argument at all, [argv[0]] is a null pointer *)
    program <- deref (nth_error argv 0) ;;
    cout (String.append "Usage: "
            (String.append program " input_file output_file bitrate")) ;;
    return_ (-1)
  else
    let input_file := nth 1 argv "" in
    let output_file := nth 2 argv "" in
    bitrate <- throwing (stoi (nth 3 argv "")) ;;
    call Ev_av_register_all ;;
    let '(rc, ictx0) := avformat_open_input lib input_file in
    call (Ev_avformat_open_input input_file rc) ;;
    fail_if (rc <? 0) (String.append "Failed to open input file: " input_file) ;;
    let '(rc, ictx) := avformat_find_stream_info lib ictx0 in
    call (Ev_avformat_find_stream_info rc) ;;
    fail_if (rc <? 0) "Failed to find stream information" ;;
    let video_stream_index := find_video_stream (streams ictx) 0 in
    fail_if (video_stream_index =? -1) "Failed to find video stream" ;;
    st <- deref (stream_at ictx video_stream_index) ;;
    let video_codecpar := codecpar st in
    let video_codec := avcodec_find_decoder lib (codec_id video_codecpar) in
    call (Ev_avcodec_find_decoder (codec_id video_codecpar)) ;;
    match video_codec with
    | None => cerr "Failed to find video codec" ;; return_ (-1)
    | Some video_codec =>
    let enc0 := avcodec_alloc_context3 lib video_codec in
    call Ev_avcodec_alloc_context3 ;;
    match enc0 with
    | None => cerr "Failed to allocate video encoder context" ;; return_ (-1)
    | Some enc0 =>
    let '(rc, enc1) := avcodec_parameters_to_context lib enc0 video_codecpar in
    call (Ev_avcodec_parameters_to_context rc) ;;
    fail_if (rc <? 0) "Failed to copy codec parameters" ;;
    let enc2 := set_bit_rate enc1 (int_mul bitrate 1000) in
    let '(rc, enc) := avcodec_open2 lib enc2 video_codec in
    call (Ev_avcodec_open2 enc2 rc) ;;
    fail_if (rc <? 0) "Failed to open video encoder" ;;
    let '(rc, oflags) := avformat_alloc_output_context2 lib "3gpp" output_file in
    let octx := mkFormatContext [] oflags None [] in
    call (Ev_avformat_alloc_output_context2 "3gpp" output_file rc) ;;
    fail_if (rc <? 0) "Failed to create output context" ;;
    let video_stream_id := av_find_best_stream lib octx AVMEDIA_TYPE_VIDEO in
    call (Ev_av_find_best_stream octx AVMEDIA_TYPE_VIDEO video_stream_id) ;;
    fail_if (video_stream_id =? -1) "Failed to find video stream id" ;;
    call Ev_av_packet_alloc ;;
    match av_packet_alloc lib with
    | None => cerr "Failed to allocate encoder packet" ;; return_ (-1)
    | Some encoder_packet =>
    call Ev_av_frame_alloc ;;
    match av_frame_alloc lib 0 with
    | None => cerr "Failed to allocate input frame" ;; return_ (-1)
    | Some input_frame =>
    call (Ev_sws_getContext (par_width video_codecpar) (par_height video_codecpar)
            (width enc) (height enc) AV_PIX_FMT_YUV420P SWS_BILINEAR) ;;
    match sws_getContext lib (par_width video_codecpar) (par_height video_codecpar)
            (width enc) (height enc) AV_PIX_FMT_YUV420P SWS_BILINEAR with
    | None => cerr "Failed to create SW scaler" ;; return_ (-1)
    | Some sws_context =>
    call Ev_av_frame_alloc ;;
    match av_frame_alloc lib 1 with
    | None => cerr "Failed to allocate output frame" ;; return_ (-1)
    | Some output_frame =>
    octx' <-
      (if negb (Z.land (oformat_flags octx) AVFMT_NOFILE =? 0) then
         call (Ev_av_malloc 4096) ;;
         call (Ev_avio_alloc_context 4096) ;;
         ret (set_pb octx (avio_alloc_context lib 4096))
       else
         let '(rc, io) := avio_open lib output_file AVIO_FLAG_WRITE in
         call (Ev_avio_open output_file rc) ;;
         fail_if (rc <? 0) (String.append "Failed to open output file: " output_file) ;;
         ret (set_pb octx io)) ;;
    let rc := avformat_write_header lib octx' in
    call (Ev_avformat_write_header octx' rc) ;;
    fail_if (rc <? 0) "Failed to write output header" ;;
    ret (mkPipeline ictx video_stream_index video_codecpar enc octx'
           video_stream_id encoder_packet input_frame sws_context output_frame)
    end end end end end end.

(** Lines 147-150 and 157-160:
    [while (avcodec_receive_packet(ctx, pkt) == 0) { rescale; write; }].
    Each successful call takes the head of the ready queue; the loop ends
    with the call that finds the queue empty. The operands of the
    rescaling are read by [main] itself from the two stream arrays,
    [input_format_context->streams[video_stream_index]] and
    [output_format_context->streams[video_stream_id]], before the call:
    a slot that does not exist ends the run there. *)
Fixpoint receive_loop (lib : Library) (p : Pipeline) (ready : list AVPacket)
  : Run unit :=
  match ready with
  | [] => call (Ev_avcodec_receive_packet None)
  | pkt :: rest =>
      call (Ev_avcodec_receive_packet (Some pkt)) ;;
      src <- deref (stream_at (input_format_context p) (video_stream_index p)) ;;
      dst <- deref (stream_at (output_format_context p) (video_stream_id p)) ;;
      call (Ev_av_packet_rescale_ts pkt src dst) ;;
      call (Ev_av_interleaved_write_frame (av_packet_rescale_ts lib pkt src dst)) ;;
      receive_loop lib p rest
  end.

(** Lines 140-154: the main encoding loop over the packets the demuxer
    delivers; yields the encoder session as the loop leaves it. *)
Fixpoint main_loop (lib : Library) (p : Pipeline) (source : list AVPacket)
    (enc : AVCodecContext) : Run AVCodecContext :=
  match source with
  | [] => call (Ev_av_read_frame None) ;; ret enc
  | pkt :: rest =>
      call (Ev_av_read_frame (Some pkt)) ;;
      if stream_index pkt =? video_stream_index p then
        let '(rc, enc1) := avcodec_send_frame lib enc (Some (input_frame p)) in
        call (Ev_avcodec_send_frame (Some (input_frame p)) rc) ;;
        if rc <? 0 then
          cerr "Error sending a frame for encoding" ;;
          ret enc1
        else
          receive_loop lib p (queue enc1) ;;
          call Ev_av_packet_unref ;;
          main_loop lib p rest (set_queue enc1 [])
      else
        call Ev_av_packet_unref ;;
        main_loop lib p rest enc
  end.

(** Lines 156-160: "Flush the encoder". *)
Definition main_flush (lib : Library) (p : Pipeline) (enc : AVCodecContext)
  : Run AVCodecContext :=
  receive_loop lib p (queue enc) ;;
  ret (set_queue enc []).

(** Lines 162-181: trailer, closing the output and freeing the resources. *)
Definition main_teardown (p : Pipeline) : Run unit :=
  call Ev_av_write_trailer ;;
  (if negb (Z.land (oformat_flags (output_format_context p)) AVFMT_NOFILE =? 0)
   then call Ev_avio_context_free
   else call Ev_avio_closep) ;;
  call (Ev_av_frame_free (output_frame p)) ;;
  call Ev_sws_freeContext ;;
  call (Ev_av_frame_free (input_frame p)) ;;
  call Ev_av_packet_free ;;
  call Ev_avcodec_free_context ;;
  call Ev_avcodec_parameters_destroy ;;
  call Ev_avformat_close_input.

Definition main (lib : Library) (argv : list string) : Run Z :=
  p <- main_setup lib argv ;;
  enc <- main_loop lib p (demux (input_format_context p)) (video_encoder_ctx p) ;;
  main_flush lib p enc ;;
  main_teardown p ;;
  cout "Conversion completed successfully!" ;;
  return_ 0.

(** Lines 139-185 on their own: what [main] does once setup has left
    it the locals [p]. *)
Definition main_rest (lib : Library) (p : Pipeline) : Run Z :=
  enc <- main_loop lib p (demux (input_format_context p)) (video_encoder_ctx p) ;;
  main_flush lib p enc ;;
  main_teardown p ;;
  cout "Conversion completed successfully!" ;;
  return_ 0.

(** What a run of the program shows from outside. *)
Definition trace {A} (r : Run A) : list Event := fst r.

Definition exit_of (r : Run Z) : Outcome :=
  match snd r with
  | Next status => Returned status
  | Stop o => o
  end.

Definition is_cout (e : Event) : option string :=
  match e with Ev_cout s => Some s | _ => None end.
Definition is_cerr (e : Event) : option string :=
  match e with Ev_cerr s => Some s | _ => None end.

Fixpoint filter_map {A B} (f : A -> option B) (l : list A) : list B :=
  match l with
  | [] => []
  | a :: r => match f a with Some b => b :: filter_map f r | None => filter_map f r end
  end.

Definition stdout {A} (r : Run A) : list string := filter_map is_cout (trace r).
Definition stderr {A} (r : Run A) : list string := filter_map is_cerr (trace r).

(** ** Concrete sources, encoders and libraries to run the program on *)

Module Sample.

Definition video_par : AVCodecParameters :=
  mkCodecParameters AVMEDIA_TYPE_VIDEO 27 800000 640 480.
Definition audio_par : AVCodecParameters :=
  mkCodecParameters AVMEDIA_TYPE_AUDIO 86018 128000 0 0.

Definition audio_stream : AVStream := mkStream audio_par (mkRational 1 44100).
Definition video_stream : AVStream := mkStream video_par (mkRational 1 25).

Definition audio_packet : AVPacket := mkPacket 0 0 0 [1; 2].
Definition video_packet : AVPacket := mkPacket 1 0 0 [3; 4; 5].

(** A source whose stream 0 is audio and whose stream 1 is video. *)
Definition source (packets : list AVPacket) : AVFormatContext :=
  mkFormatContext [audio_stream; video_stream] 0 None packets.

(** A source with an audio stream only. *)
Definition audio_only : AVFormatContext :=
  mkFormatContext [audio_stream] 0 None [audio_packet].

Definition h264 : AVCodec := mkCodec 27 "h264".
Definition fresh_context : AVCodecContext := mkCodecContext h264 0 0 0 [] [].
Definition blank_frame : AVFrame := mkFrame 0 0 0 [].
Definition blank_packet : AVPacket := mkPacket 0 0 0 [].
Definition scaler : SwsContext := mkSws 640 480 640 480 0 2.

Definition packet_of (f : AVFrame) : AVPacket :=
  mkPacket 0 (frame_pts f) (frame_pts f) (frame_data f).

(** An encoder that turns every frame into a ready packet at once. *)
Definition send_eager (c : AVCodecContext) (f : option AVFrame)
  : Z * AVCodecContext :=
  match f with
  | Some fr => (0, set_queue c (queue c ++ [packet_of fr]))
  | None => (0, c)
  end.

(** An encoder that keeps every frame it is given and makes the packets
    ready only when it is sent the null frame. *)
Definition send_buffering (c : AVCodecContext) (f : option AVFrame)
  : Z * AVCodecContext :=
  match f with
  | Some fr =>
      (0, mkCodecContext (codec c) (bit_rate c) (width c) (height c)
            (queue c) (held c ++ [fr]))
  | None =>
      (0, mkCodecContext (codec c) (bit_rate c) (width c) (height c)
            (queue c ++ map packet_of (held c)) [])
  end.

(** An encoder that refuses every frame. *)
Definition send_failing (c : AVCodecContext) (f : option AVFrame)
  : Z * AVCodecContext := (-22, c).

Definition copy_parameters (c : AVCodecContext) (par : AVCodecParameters)
  : Z * AVCodecContext :=
  (0, mkCodecContext (codec c) (par_bit_rate par) (par_width par) (par_height par)
        (queue c) (held c)).

(** Timestamps scaled by [num_src * den_dst / (den_src * num_dst)]. *)
Definition rescale (pkt : AVPacket) (s d : AVStream) : AVPacket :=
  let f t := t * (num (time_base s) * den (time_base d))
               / (den (time_base s) * num (time_base d)) in
  mkPacket (stream_index pkt) (f (pts pkt)) (f (dts pkt)) (data pkt).

(** A library in which every call succeeds, over a given source and
    encoder; [info_rc] is the status of [avformat_find_stream_info] and
    [best] the result of [av_find_best_stream]. *)
Definition library (src : AVFormatContext) (info_rc best : Z)
    (send : AVCodecContext -> option AVFrame -> Z * AVCodecContext) : Library :=
  mkLibrary
    (fun _ => (0, src))
    (fun c => (info_rc, c))
    (fun _ => Some h264)
    (fun _ => Some fresh_context)
    copy_parameters
    (fun c _ => (0, c))
    (fun _ _ => (0, 0))
    (fun _ _ => best)
    (Some blank_packet)
    (fun _ => Some blank_frame)
    (fun a b c d e f => Some (mkSws a b c d e f))
    (fun n => Some (avio_memory n))
    (fun f fl => (0, Some (avio_file f fl)))
    (fun _ => 0)
    send
    rescale.

Definition argv (bitrate : string) : list string :=
  ["av_encode_video1"; "in.mp4"; "out.3gp"; bitrate].

(** The locals of [main] after setup in [library (source packets) 0 0 _]
    with bitrate argument 500. *)
Definition pipeline (packets : list AVPacket) : Pipeline :=
  mkPipeline (source packets) 1 video_par
    (mkCodecContext h264 500000 640 480 [] [])
    (mkFormatContext [] 0 (Some (avio_file "out.3gp" 2)) [])
    0 blank_packet blank_frame scaler blank_frame.

End Sample.

(** ** Classifying the events of a run *)

(** Calls that give a resource back. *)
Definition is_release (e : Event) : bool :=
  match e with
  | Ev_avio_context_free | Ev_avio_closep | Ev_av_frame_free _
  | Ev_sws_freeContext | Ev_av_packet_free | Ev_avcodec_free_context
  | Ev_avcodec_parameters_destroy | Ev_avformat_close_input => true
  | _ => false
  end.

(** Calls that create, fill or finalise the output. *)
Definition is_output (e : Event) : bool :=
  match e with
  | Ev_avformat_alloc_output_context2 _ _ _ | Ev_avio_alloc_context _
  | Ev_avio_open _ _ | Ev_avformat_write_header _ _
  | Ev_av_interleaved_write_frame _ | Ev_av_write_trailer
  | Ev_avio_context_free | Ev_avio_closep => true
  | _ => false
  end.

(** What setup may do. *)
Definition is_setup_event (e : Event) : bool :=
  match e with
  | Ev_cout _ | Ev_cerr _ | Ev_av_register_all | Ev_avformat_open_input _ _
  | Ev_avformat_find_stream_info _ | Ev_avcodec_find_decoder _
  | Ev_avcodec_alloc_context3 | Ev_avcodec_parameters_to_context _
  | Ev_avcodec_open2 _ _ | Ev_avformat_alloc_output_context2 _ _ _
  | Ev_av_find_best_stream _ _ _ | Ev_av_packet_alloc | Ev_av_frame_alloc
  | Ev_sws_getContext _ _ _ _ _ _ | Ev_av_malloc _ | Ev_avio_alloc_context _
  | Ev_avio_open _ _ | Ev_avformat_write_header _ _ => true
  | _ => false
  end.

(** What the encoding loop and the flush may do. *)
Definition is_streaming_event (e : Event) : bool :=
  match e with
  | Ev_cerr _ | Ev_av_read_frame _ | Ev_avcodec_send_frame _ _
  | Ev_avcodec_receive_packet _ | Ev_av_packet_rescale_ts _ _ _
  | Ev_av_interleaved_write_frame _ | Ev_av_packet_unref => true
  | _ => false
  end.

(** Everything a packet can cause besides being read and dropped. *)
Definition is_codec_or_mux (e : Event) : bool :=
  match e with
  | Ev_av_read_frame _ | Ev_av_packet_unref => false
  | _ => true
  end.

Definition sent_frame (e : Event) : option (option AVFrame) :=
  match e with Ev_avcodec_send_frame f _ => Some f | _ => None end.

Definition written_packet (e : Event) : option AVPacket :=
  match e with Ev_av_interleaved_write_frame q => Some q | _ => None end.

(** [each_preceded P prev t]: every event [e] of [t] satisfies [P] of the
    event just before it ([prev] before the first one). *)
Fixpoint each_preceded (P : option Event -> Event -> Prop)
    (prev : option Event) (t : list Event) : Prop :=
  match t with
  | [] => True
  | e :: rest => P prev e /\ each_preceded P (Some e) rest
  end.

Definition last_event (prev : option Event) (t : list Event) : option Event :=
  match rev t with
  | [] => prev
  | e :: _ => Some e
  end.

(** What the teardown and the final message may do. *)
Definition is_teardown_event (e : Event) : bool :=
  match e with
  | Ev_av_write_trailer | Ev_cout _ => true
  | _ => is_release e
  end.

(** The two slots read before every [av_packet_rescale_ts] call:
    [input_format_context->streams[video_stream_index]] and
    [output_format_context->streams[video_stream_id]]. *)
Definition rescale_source (p : Pipeline) : option AVStream :=
  stream_at (input_format_context p) (video_stream_index p).
Definition rescale_target (p : Pipeline) : option AVStream :=
  stream_at (output_format_context p) (video_stream_id p).

(** A write is the direct successor of the rescaling of its packet
    between the two streams, which both exist. *)
Definition write_after_rescale (lib : Library) (p : Pipeline)
    (prev : option Event) (e : Event) : Prop :=
  match e with
  | Ev_av_interleaved_write_frame q =>
      exists pkt src dst,
        rescale_source p = Some src /\ rescale_target p = Some dst /\
        prev = Some (Ev_av_packet_rescale_ts pkt src dst) /\
        q = av_packet_rescale_ts lib pkt src dst
  | _ => True
  end.

(** What the loop and the flush do as long as the encoder hands out no
    packet: no packet received, none rescaled, none written. *)
Definition is_dry (e : Event) : bool :=
  match e with
  | Ev_cerr _ | Ev_av_read_frame _ | Ev_avcodec_send_frame _ _
  | Ev_avcodec_receive_packet None | Ev_av_packet_unref => true
  | _ => false
  end.

(** The lookup of the output video stream id is the direct successor of
    the allocation of the output context, and is given a context
    without streams. *)
Definition lookup_after_alloc (prev : option Event) (e : Event) : Prop :=
  match e with
  | Ev_av_find_best_stream ctx _ _ =>
      streams ctx = [] /\
      exists file rc, prev = Some (Ev_avformat_alloc_output_context2 "3gpp" file rc)
  | _ => True
  end.

(** The test of line 141. *)
Definition selected (p : Pipeline) (pkt : AVPacket) : bool :=
  stream_index pkt =? video_stream_index p.

(** The events of the encoding loop and of the flush of one run. *)
Definition streaming_events (lib : Library) (p : Pipeline) : list Event :=
  let loop := main_loop lib p (demux (input_format_context p)) (video_encoder_ctx p) in
  trace loop ++
  match snd loop with
  | Next enc => trace (receive_loop lib p (queue enc))
  | Stop _ => []
  end.

Definition success_line : Event := Ev_cout "Conversion completed successfully!".

(** ** Further views of a trace *)

(** The line of lines 10-11. *)
Definition usage_line (argv : list string) : string :=
  String.append "Usage: "
    (String.append (nth 0 argv "") " input_file output_file bitrate").

Definition is_message (e : Event) : bool :=
  match e with
  | Ev_cout _ | Ev_cerr _ => true
  | _ => false
  end.

Definition quiet (e : Event) : bool := negb (is_message e).

(** What the muxer is asked to do; a header call carries whether it
    succeeded. *)
Inductive MuxCall : Type :=
| Mux_header (ok : bool)
| Mux_write (q : AVPacket)
| Mux_trailer.

Definition mux_call (e : Event) : option MuxCall :=
  match e with
  | Ev_avformat_write_header _ rc => Some (Mux_header (negb (rc <? 0)))
  | Ev_av_interleaved_write_frame q => Some (Mux_write q)
  | Ev_av_write_trailer => Some Mux_trailer
  | _ => None
  end.

(** Opening and closing the I/O context of the output. *)
Definition is_output_io (e : Event) : bool :=
  match e with
  | Ev_avio_alloc_context _ | Ev_avio_open _ _
  | Ev_avio_context_free | Ev_avio_closep => true
  | _ => false
  end.

Definition read_result (e : Event) : option (option AVPacket) :=
  match e with Ev_av_read_frame o => Some o | _ => None end.

Definition read_packet (e : Event) : option AVPacket :=
  match e with Ev_av_read_frame (Some q) => Some q | _ => None end.

Definition received_packet (e : Event) : option AVPacket :=
  match e with Ev_avcodec_receive_packet (Some q) => Some q | _ => None end.

Definition is_unref (e : Event) : bool :=
  match e with Ev_av_packet_unref => true | _ => false end.



(** A trace that ends with a diagnostic and is silent before it. *)
Definition ends_in_diagnostic (t : list Event) : bool :=
  match rev t with
  | Ev_cerr _ :: r => forallb quiet r
  | _ => false
  end.

(** The file a call names is the one the command line gives for it. *)
Definition file_named (argv : list string) (e : Event) : Prop :=
  match e with
  | Ev_avformat_open_input f _ => f = nth 1 argv ""
  | Ev_avformat_alloc_output_context2 fmt f _ => fmt = "3gpp" /\ f = nth 2 argv ""
  | Ev_avio_open f _ => f = nth 2 argv ""
  | _ => True
  end.

(** The [av_read_frame] call that ends the loop. *)
Definition is_end_of_input (e : Event) : bool :=
  match e with Ev_av_read_frame None => true | _ => false end.

(** ** Reasoning about [Run] *)

Lemma bind_Next {A B} (m : Run A) (k : A -> Run B) t a :
  m = (t, Next a) -> bind m k = (t ++ fst (k a), snd (k a)).
Proof. intros ->. unfold bind. now destruct (k a). Qed.

Lemma bind_Stop {A B} (m : Run A) (k : A -> Run B) t o :
  m = (t, Stop o) -> bind m k = (t, Stop o).
Proof. now intros ->. Qed.

Lemma call_bind {B} e (k : unit -> Run B) :
  bind (call e) k = (e :: fst (k tt), snd (k tt)).
Proof. unfold bind, call. now destruct (k tt). Qed.

Lemma each_preceded_app P prev a b :
  each_preceded P prev (a ++ b) <->
  each_preceded P prev a /\ each_preceded P (last_event prev a) b.
Proof.
  revert prev. induction a as [|e a IH]; intros prev; simpl.
  - unfold last_event; simpl. tauto.
  - rewrite IH. unfold last_event. simpl rev.
    destruct (rev a) as [|x r] eqn:E; simpl; tauto.
Qed.

Lemma each_preceded_free (P : option Event -> Event -> Prop) prev t :
  Forall (fun e => forall q, P q e) t -> each_preceded P prev t.
Proof.
  intros H. revert prev. induction H; intros prev; simpl; auto.
Qed.

(** The property read at an arbitrary position of the trace. *)
Lemma each_preceded_at P t : forall prev pre e post,
  each_preceded P prev t -> t = pre ++ e :: post ->
  P (last_event prev pre) e.
Proof.
  intros prev pre e post H ->.
  apply each_preceded_app in H. simpl in H. tauto.
Qed.

Lemma last_event_Some prev pre e :
  last_event prev pre = Some e ->
  (pre = [] /\ prev = Some e) \/ exists pre', pre = pre' ++ [e].
Proof.
  unfold last_event. destruct (rev pre) as [|x r] eqn:E.
  - intros ->. left. split; auto.
    apply (f_equal (@rev Event)) in E. now rewrite rev_involutive in E.
  - intros [= ->]. right. exists (rev r).
    apply (f_equal (@rev Event)) in E. now rewrite rev_involutive in E.
Qed.

Lemma forallb_In {A} (f : A -> bool) l x :
  forallb f l = true -> In x l -> f x = true.
Proof. intros H Hin. rewrite forallb_forall in H. auto. Qed.

Lemma filter_map_app {A B} (f : A -> option B) l1 l2 :
  filter_map f (l1 ++ l2) = filter_map f l1 ++ filter_map f l2.
Proof.
  induction l1 as [|a l1 IH]; simpl; auto.
  destruct (f a); simpl; now rewrite IH.
Qed.

(** ** The phases of [main] *)

Ltac head_scrutinee t :=
  lazymatch t with
  | match ?x with _ => _ end => head_scrutinee x
  | _ => t
  end.

(** Splits on the first test of the program that is still undecided. *)
Ltac next_test :=
  match goal with
  | |- context [match ?x with _ => _ end] =>
      let h := head_scrutinee x in destruct h eqn:?
  end.

Ltac unfold_setup :=
  unfold main_setup, fail_if, throwing, deref, cout, cerr, call, return_,
    ret, bind, trace.

Lemma setup_events_only lib argv :
  forallb is_setup_event (trace (main_setup lib argv)) = true.
Proof.
  unfold_setup.
  repeat (next_test; cbn [fst snd app forallb is_setup_event andb];
          try reflexivity).
Qed.

Lemma ret_bind {A B} (a : A) (k : A -> Run B) : bind (ret a) k = k a.
Proof. unfold bind, ret. now destruct (k a). Qed.

Lemma bind_snd_Next {A B} (m : Run A) (k : A -> Run B) a :
  snd m = Next a -> bind m k = (trace m ++ fst (k a), snd (k a)).
Proof.
  destruct m as [t s]. cbn [snd trace fst]. intros ->. now apply bind_Next.
Qed.

Lemma bind_snd_Stop {A B} (m : Run A) (k : A -> Run B) o :
  snd m = Stop o -> bind m k = (trace m, Stop o).
Proof. destruct m as [t s]. cbn [snd trace fst]. now intros ->. Qed.

Ltac run_calls :=
  repeat (rewrite ?call_bind, ?ret_bind; cbn beta iota zeta; cbn [fst snd trace]).

(** One turn of the receive loop: with both streams in place the packet
    is rescaled and written and the loop goes on; with one of the two
    slots missing the run ends right after the packet was received. *)
Lemma receive_loop_cons lib p pkt rest :
  receive_loop lib p (pkt :: rest)
  = match rescale_source p, rescale_target p with
    | Some src, Some dst =>
        (Ev_avcodec_receive_packet (Some pkt)
           :: Ev_av_packet_rescale_ts pkt src dst
           :: Ev_av_interleaved_write_frame (av_packet_rescale_ts lib pkt src dst)
           :: trace (receive_loop lib p rest),
         snd (receive_loop lib p rest))
    | _, _ => ([Ev_avcodec_receive_packet (Some pkt)], Stop Undefined)
    end.
Proof.
  cbn [receive_loop]. unfold rescale_source, rescale_target.
  destruct (stream_at (input_format_context p) (video_stream_index p)) as [src|];
    [destruct (stream_at (output_format_context p) (video_stream_id p)) as [dst|]|];
    unfold deref; run_calls; try reflexivity.
  all: unfold bind, call; reflexivity.
Qed.

Lemma receive_loop_outcome lib p ready :
  snd (receive_loop lib p ready) = Next tt \/
  snd (receive_loop lib p ready) = Stop Undefined.
Proof.
  induction ready as [|pkt rest IH]; [now left|].
  rewrite receive_loop_cons.
  destruct (rescale_source p), (rescale_target p); cbn [snd]; auto.
Qed.

Lemma receive_loop_events lib p ready :
  forallb is_streaming_event (trace (receive_loop lib p ready)) = true.
Proof.
  induction ready as [|pkt rest IH]; [reflexivity|].
  rewrite receive_loop_cons.
  destruct (rescale_source p), (rescale_target p); cbn; auto.
Qed.

(** With the output slot missing the receive loop never gets past its
    first packet. *)
Lemma receive_loop_dry lib p ready :
  rescale_target p = None ->
  receive_loop lib p ready
  = match ready with
    | [] => ([Ev_avcodec_receive_packet None], Next tt)
    | pkt :: _ => ([Ev_avcodec_receive_packet (Some pkt)], Stop Undefined)
    end.
Proof.
  intros H. destruct ready as [|pkt rest]; [reflexivity|].
  rewrite receive_loop_cons, H. now destruct (rescale_source p).
Qed.

(** One turn of the encoding loop, by cases on the packet read. *)
Lemma main_loop_other lib p pkt rest enc :
  (stream_index pkt =? video_stream_index p) = false ->
  main_loop lib p (pkt :: rest) enc
  = (Ev_av_read_frame (Some pkt) :: Ev_av_packet_unref
       :: trace (main_loop lib p rest enc),
     snd (main_loop lib p rest enc)).
Proof.
  intros H. cbn [main_loop]. rewrite H. now run_calls.
Qed.

Lemma main_loop_break lib p pkt rest enc rc enc1 :
  (stream_index pkt =? video_stream_index p) = true ->
  avcodec_send_frame lib enc (Some (input_frame p)) = (rc, enc1) ->
  (rc <? 0) = true ->
  main_loop lib p (pkt :: rest) enc
  = ([Ev_av_read_frame (Some pkt);
      Ev_avcodec_send_frame (Some (input_frame p)) rc;
      Ev_cerr "Error sending a frame for encoding"],
     Next enc1).
Proof.
  intros H Hs Hrc. cbn [main_loop]. rewrite H, Hs. run_calls.
  rewrite Hrc. unfold cerr. now run_calls.
Qed.

Lemma main_loop_encode lib p pkt rest enc rc enc1 :
  (stream_index pkt =? video_stream_index p) = true ->
  avcodec_send_frame lib enc (Some (input_frame p)) = (rc, enc1) ->
  (rc <? 0) = false ->
  snd (receive_loop lib p (queue enc1)) = Next tt ->
  main_loop lib p (pkt :: rest) enc
  = (Ev_av_read_frame (Some pkt)
       :: Ev_avcodec_send_frame (Some (input_frame p)) rc
       :: trace (receive_loop lib p (queue enc1))
       ++ Ev_av_packet_unref
       :: trace (main_loop lib p rest (set_queue enc1 [])),
     snd (main_loop lib p rest (set_queue enc1 []))).
Proof.
  intros H Hs Hrc Hr. cbn [main_loop]. rewrite H, Hs. run_calls.
  rewrite Hrc, (bind_snd_Next _ _ Hr). now run_calls.
Qed.

Lemma main_loop_halt lib p pkt rest enc rc enc1 o :
  (stream_index pkt =? video_stream_index p) = true ->
  avcodec_send_frame lib enc (Some (input_frame p)) = (rc, enc1) ->
  (rc <? 0) = false ->
  snd (receive_loop lib p (queue enc1)) = Stop o ->
  main_loop lib p (pkt :: rest) enc
  = (Ev_av_read_frame (Some pkt)
       :: Ev_avcodec_send_frame (Some (input_frame p)) rc
       :: trace (receive_loop lib p (queue enc1)),
     Stop o).
Proof.
  intros H Hs Hrc Hr. cbn [main_loop]. rewrite H, Hs. run_calls.
  rewrite Hrc, (bind_snd_Stop _ _ Hr). now run_calls.
Qed.

(** The four cases at once, for proofs by induction on the source. *)
Lemma main_loop_cases lib p pkt rest enc :
  (main_loop lib p (pkt :: rest) enc
   = (Ev_av_read_frame (Some pkt) :: Ev_av_packet_unref
        :: trace (main_loop lib p rest enc),
      snd (main_loop lib p rest enc))
   /\ selected p pkt = false)
  \/ (exists rc enc1,
        main_loop lib p (pkt :: rest) enc
        = ([Ev_av_read_frame (Some pkt);
            Ev_avcodec_send_frame (Some (input_frame p)) rc;
            Ev_cerr "Error sending a frame for encoding"],
           Next enc1)
        /\ selected p pkt = true)
  \/ (exists rc enc1,
        main_loop lib p (pkt :: rest) enc
        = (Ev_av_read_frame (Some pkt)
             :: Ev_avcodec_send_frame (Some (input_frame p)) rc
             :: trace (receive_loop lib p (queue enc1))
             ++ Ev_av_packet_unref
             :: trace (main_loop lib p rest (set_queue enc1 [])),
           snd (main_loop lib p rest (set_queue enc1 [])))
        /\ selected p pkt = true
        /\ snd (receive_loop lib p (queue enc1)) = Next tt)
  \/ (exists rc enc1,
        main_loop lib p (pkt :: rest) enc
        = (Ev_av_read_frame (Some pkt)
             :: Ev_avcodec_send_frame (Some (input_frame p)) rc
             :: trace (receive_loop lib p (queue enc1)),
           Stop Undefined)
        /\ selected p pkt = true
        /\ snd (receive_loop lib p (queue enc1)) = Stop Undefined).
Proof.
  unfold selected.
  destruct (stream_index pkt =? video_stream_index p) eqn:H.
  - destruct (avcodec_send_frame lib enc (Some (input_frame p))) as [rc enc1] eqn:Hs.
    destruct (rc <? 0) eqn:Hrc.
    + right; left. exists rc, enc1. split; auto.
      eapply main_loop_break; eauto.
    + destruct (receive_loop_outcome lib p (queue enc1)) as [Hr|Hr].
      * right; right; left. exists rc, enc1. split; auto.
        eapply main_loop_encode; eauto.
      * right; right; right. exists rc, enc1. split; auto.
        eapply main_loop_halt; eauto.
  - left. split; auto. now apply main_loop_other.
Qed.

Lemma main_loop_outcome lib p source : forall enc,
  (exists enc', snd (main_loop lib p source enc) = Next enc') \/
  snd (main_loop lib p source enc) = Stop Undefined.
Proof.
  induction source as [|pkt rest IH]; intros enc.
  - left. now exists enc.
  - destruct (main_loop_cases lib p pkt rest enc)
      as [[-> _] | [(rc & enc1 & -> & _) | [(rc & enc1 & -> & _) | (rc & enc1 & -> & _)]]];
      cbn [snd].
    + apply IH.
    + left. now exists enc1.
    + apply IH.
    + now right.
Qed.

Lemma main_loop_events lib p source : forall enc,
  forallb is_streaming_event (trace (main_loop lib p source enc)) = true.
Proof.
  induction source as [|pkt rest IH]; intros enc.
  - reflexivity.
  - pose proof (receive_loop_events lib p) as Hr.
    destruct (main_loop_cases lib p pkt rest enc)
      as [[-> _] | [(rc & enc1 & -> & _) | [(rc & enc1 & -> & _) | (rc & enc1 & -> & _)]]];
      cbn [trace fst forallb is_streaming_event andb].
    + apply IH.
    + reflexivity.
    + rewrite forallb_app, Hr. cbn. apply IH.
    + apply Hr.
Qed.

Lemma main_loop_eta lib p source enc :
  main_loop lib p source enc
  = (trace (main_loop lib p source enc), snd (main_loop lib p source enc)).
Proof. unfold trace. now destruct (main_loop lib p source enc). Qed.

Lemma teardown_trace p :
  trace (main_teardown p)
  = [Ev_av_write_trailer;
     if negb (Z.land (oformat_flags (output_format_context p)) AVFMT_NOFILE =? 0)
     then Ev_avio_context_free else Ev_avio_closep;
     Ev_av_frame_free (output_frame p); Ev_sws_freeContext;
     Ev_av_frame_free (input_frame p); Ev_av_packet_free;
     Ev_avcodec_free_context; Ev_avcodec_parameters_destroy;
     Ev_avformat_close_input].
Proof. unfold main_teardown, call, bind, trace. now destruct (negb _). Qed.

Lemma teardown_next p : snd (main_teardown p) = Next tt.
Proof. unfold main_teardown, call, bind. now destruct (negb _). Qed.

Lemma teardown_events_only p :
  forallb is_teardown_event (trace (main_teardown p)) = true.
Proof. rewrite teardown_trace. now destruct (negb _). Qed.

Lemma streaming_events_only lib p :
  forallb is_streaming_event (streaming_events lib p) = true.
Proof.
  unfold streaming_events. rewrite forallb_app, main_loop_events. simpl.
  destruct (snd (main_loop _ _ _ _)); auto. apply receive_loop_events.
Qed.

Lemma main_flush_Next lib p enc :
  snd (receive_loop lib p (queue enc)) = Next tt ->
  main_flush lib p enc = (trace (receive_loop lib p (queue enc)), Next (set_queue enc [])).
Proof.
  intros Hr. unfold main_flush. rewrite (bind_snd_Next _ _ Hr).
  cbn [ret fst snd]. now rewrite app_nil_r.
Qed.

Lemma main_flush_Stop lib p enc o :
  snd (receive_loop lib p (queue enc)) = Stop o ->
  main_flush lib p enc = (trace (receive_loop lib p (queue enc)), Stop o).
Proof. intros Hr. unfold main_flush. now rewrite (bind_snd_Stop _ _ Hr). Qed.

(** What [main] does after setup: either the loop and the flush run to
    their end, and then come the teardown, the success line and
    [return 0]; or the run ends, undefined, inside the loop or the flush,
    at a slot that does not exist. *)
Lemma main_rest_cases lib p :
  (main_rest lib p
   = (streaming_events lib p ++ trace (main_teardown p) ++ [success_line],
      Stop (Returned 0))
   /\ exists enc,
        snd (main_loop lib p (demux (input_format_context p)) (video_encoder_ctx p))
        = Next enc /\
        snd (receive_loop lib p (queue enc)) = Next tt)
  \/ (main_rest lib p = (streaming_events lib p, Stop Undefined)
      /\ (snd (main_loop lib p (demux (input_format_context p)) (video_encoder_ctx p))
          = Stop Undefined
          \/ exists enc,
               snd (main_loop lib p (demux (input_format_context p))
                      (video_encoder_ctx p)) = Next enc /\
               snd (receive_loop lib p (queue enc)) = Stop Undefined)).
Proof.
  unfold main_rest, streaming_events.
  destruct (main_loop_outcome lib p (demux (input_format_context p))
              (video_encoder_ctx p)) as [[enc Hl]|Hl]; rewrite Hl.
  - rewrite (bind_snd_Next _ _ Hl).
    destruct (receive_loop_outcome lib p (queue enc)) as [Hr|Hr].
    + left. split; [|now exists enc].
      rewrite (bind_Next _ (main_flush_Next lib p enc Hr)).
      rewrite (bind_snd_Next _ _ (teardown_next p)).
      unfold cout, return_. run_calls. now rewrite <- !app_assoc.
    + right. split; [|right; now exists enc].
      rewrite (bind_Stop _ (main_flush_Stop lib p enc Hr)). reflexivity.
  - right. split; [|now left].
    rewrite (bind_snd_Stop _ _ Hl), app_nil_r. reflexivity.
Qed.

Lemma main_after_setup lib argv t p :
  main_setup lib argv = (t, Next p) ->
  main lib argv = (t ++ trace (main_rest lib p), snd (main_rest lib p)).
Proof.
  intros Hs. change (main lib argv) with (bind (main_setup lib argv) (main_rest lib)).
  now rewrite (bind_Next _ Hs).
Qed.

Lemma main_stopped lib argv t o :
  main_setup lib argv = (t, Stop o) -> main lib argv = (t, Stop o).
Proof. intros Hs. unfold main. now rewrite (bind_Stop _ Hs). Qed.

(** After setup, a run only adds streaming and teardown events. *)
Lemma main_trace lib argv :
  exists rest,
    trace (main lib argv) = trace (main_setup lib argv) ++ rest /\
    forallb (fun e => is_streaming_event e || is_teardown_event e) rest = true.
Proof.
  destruct (main_setup lib argv) as [t [p|o]] eqn:Hs.
  - rewrite (main_after_setup _ _ Hs). cbn [trace fst].
    eexists; split; [reflexivity|].
    pose proof (streaming_events_only lib p) as Hstr.
    pose proof (teardown_events_only p) as Htd.
    assert (forallb (fun e => is_streaming_event e || is_teardown_event e)
              (streaming_events lib p) = true) as H1.
    { rewrite forallb_forall in *. intros e He. now rewrite (Hstr e He). }
    destruct (main_rest_cases lib p) as [[-> _]|[-> _]]; cbn [trace fst]; [|exact H1].
    rewrite !forallb_app, H1. cbn [andb].
    rewrite andb_true_iff; split; [|reflexivity].
    rewrite forallb_forall in *. intros e He. rewrite (Htd e He). apply orb_true_r.
  - rewrite (main_stopped _ _ Hs). exists []. cbn. now rewrite app_nil_r.
Qed.

Lemma each_preceded_class (P : option Event -> Event -> Prop) (f : Event -> bool) prev t :
  (forall e, f e = true -> forall q, P q e) ->
  forallb f t = true -> each_preceded P prev t.
Proof.
  intros Hf Ht. apply each_preceded_free. apply Forall_forall.
  intros e He. apply Hf. eapply forallb_In; eauto.
Qed.
(** *** Argument handling *)

Lemma main_usage lib argv :
  List.length argv <> 4%nat ->
  argv <> [] ->
  main lib argv = ([Ev_cout (usage_line argv)], Stop (Returned (-1))).
Proof.
  intros Hn Hne. apply main_stopped. unfold main_setup.
  destruct (Z.of_nat (List.length argv) =? 4) eqn:E.
  - apply Z.eqb_eq in E. lia.
  - destruct argv as [|program rest]; [contradiction|]. reflexivity.
Qed.

Lemma main_no_argv lib : main lib [] = ([], Stop Undefined).
Proof. reflexivity. Qed.

Lemma main_uncaught lib argv e :
  List.length argv = 4%nat ->
  stoi (nth 3 argv "") = inl e ->
  main lib argv = ([], Stop (Uncaught e)).
Proof.
  intros Hn He. apply main_stopped.
  unfold main_setup. rewrite Hn, He. reflexivity.
Qed.

Lemma int_mul_exact a b :
  INT_MIN <= a * b <= INT_MAX -> int_mul a b = a * b.
Proof.
  unfold INT_MIN, INT_MAX, int_mul, wrap_int. intros H.
  rewrite Z.mod_small by lia. lia.
Qed.

(** *** The stream search *)

Lemma find_video_stream_none ss : forall i,
  (forall s, In s ss -> codec_type (codecpar s) <> AVMEDIA_TYPE_VIDEO) ->
  find_video_stream ss i = -1.
Proof.
  induction ss as [|s rest IH]; intros i H; simpl; auto.
  destruct (codec_type (codecpar s)) eqn:E; simpl;
    try (apply IH; intros; apply H; now right).
  exfalso. apply (H s); simpl; auto.
Qed.

Lemma find_video_stream_found ss : forall i,
  0 <= i ->
  find_video_stream ss i <> -1 ->
  i <= find_video_stream ss i /\
  exists st,
    nth_error ss (Z.to_nat (find_video_stream ss i - i)) = Some st /\
    codec_type (codecpar st) = AVMEDIA_TYPE_VIDEO.
Proof.
  induction ss as [|s rest IH]; intros i Hi H; simpl in *.
  - congruence.
  - destruct (AVMediaType_eqb (codec_type (codecpar s)) AVMEDIA_TYPE_VIDEO) eqn:E.
    + split; [lia|]. exists s. rewrite Z.sub_diag. simpl. split; auto.
      destruct (codec_type (codecpar s)); simpl in E; congruence.
    + destruct (IH (i + 1)) as (Hle & st & Hn & Hv); [lia|auto|].
      split; [lia|]. exists st. split; auto.
      replace (find_video_stream rest (i + 1) - i)
        with (Z.succ (find_video_stream rest (i + 1) - (i + 1))) by lia.
      rewrite Z2Nat.inj_succ by lia. exact Hn.
Qed.

(** *** What setup establishes *)

Lemma setup_selects_video lib argv t p :
  main_setup lib argv = (t, Next p) ->
  video_stream_index p = find_video_stream (streams (input_format_context p)) 0 /\
  exists st,
    stream_at (input_format_context p) (video_stream_index p) = Some st /\
    codec_type (codecpar st) = AVMEDIA_TYPE_VIDEO.
Proof.
  unfold_setup.
  repeat (next_test; cbn [fst snd app]); try discriminate.
  all: intros [= <- <-]; cbn [video_stream_index input_format_context].
  all: split; [reflexivity|].
  all: match goal with
       | H : stream_at _ _ = Some ?s |- _ => exists s; split; [exact H|]
       end.
  all: match goal with
       | H : (find_video_stream ?l 0 =? -1) = false |- _ =>
           apply Z.eqb_neq in H;
           destruct (@find_video_stream_found l 0 ltac:(lia) H) as (Hle & st & Hn & Hv)
       end.
  all: match goal with
       | H : stream_at _ _ = Some ?s |- _ =>
           unfold stream_at in H; rewrite Z.sub_0_r in Hn;
           destruct (_ <? 0) in H; [discriminate|]; congruence
       end.
Qed.

(** Setup ends the process only by [return -1], by the exception of
    [std::stoi] or, on a command line without any argument, at the null
    [argv[0]]; the stream array of the input is never read outside its
    bounds. *)
Lemma setup_stop_outcomes lib argv t o :
  main_setup lib argv = (t, Stop o) ->
  o = Returned (-1) \/ (exists e, o = Uncaught e /\ t = [])
  \/ (o = Undefined /\ argv = [] /\ t = []).
Proof.
  unfold_setup.
  repeat (next_test; cbn [fst snd app]); try discriminate.
  all: intros [= <- <-]; auto.
  all: try (right; left; eexists; split; reflexivity).
  all: try match goal with
           | H : nth_error ?l 0 = None |- _ =>
               destruct l; [now right; right|discriminate H]
           end.
  exfalso.
  match goal with
  | H : (find_video_stream ?l 0 =? -1) = false |- _ =>
      apply Z.eqb_neq in H;
      destruct (@find_video_stream_found l 0 ltac:(lia) H) as (Hle & st & Hn & Hv)
  end.
  match goal with
  | H : stream_at _ _ = None |- _ =>
      unfold stream_at in H; rewrite Z.sub_0_r in Hn;
      destruct (_ <? 0) eqn:E in H; [apply Z.ltb_lt in E; lia | congruence]
  end.
Qed.

Lemma setup_open2 lib argv k ctx rc :
  stoi (nth 3 argv "") = inr k ->
  In (Ev_avcodec_open2 ctx rc) (trace (main_setup lib argv)) ->
  bit_rate ctx = int_mul k 1000.
Proof.
  intros Hk. unfold_setup. rewrite Hk.
  repeat (next_test; cbn [fst snd app In]);
    intros H; repeat (destruct H as [H|H]; try discriminate H); try contradiction.
  all: injection H as <- _; reflexivity.
Qed.

Lemma setup_lookup lib argv :
  each_preceded lookup_after_alloc None (trace (main_setup lib argv)).
Proof.
  unfold_setup.
  repeat (next_test; cbn [fst snd app each_preceded lookup_after_alloc]);
    repeat split; eauto.
Qed.

Lemma setup_without_video lib argv k :
  List.length argv = 4%nat ->
  stoi (nth 3 argv "") = inr k ->
  (forall s,
     In s (streams (snd (avformat_find_stream_info lib
                           (snd (avformat_open_input lib (nth 1 argv "")))))) ->
     codec_type (codecpar s) <> AVMEDIA_TYPE_VIDEO) ->
  exists t msg,
    main_setup lib argv = (t ++ [Ev_cerr msg], Stop (Returned (-1))) /\
    forallb (fun e => negb (is_output e)) t = true /\
    filter_map is_cerr t = [].
Proof.
  intros Hn Hk Hv. revert Hv.
  destruct (avformat_open_input lib (nth 1 argv "")) as [rc0 c0] eqn:Ho.
  cbn [snd].
  destruct (avformat_find_stream_info lib c0) as [rc1 c1] eqn:Hi.
  cbn [snd]. intros Hv. apply find_video_stream_none with (i := 0) in Hv.
  unfold_setup. rewrite Hn, Hk, Ho.
  cbn [Z.of_nat Pos.of_succ_nat Pos.succ Z.eqb Pos.eqb negb].
  destruct (rc0 <? 0) eqn:E0; cbn [fst snd app].
  - eexists [_; _], _. split; [reflexivity|]. split; reflexivity.
  - rewrite Hi. destruct (rc1 <? 0) eqn:E1; cbn [fst snd app].
    + eexists [_; _; _], _. split; [reflexivity|]. split; reflexivity.
    + rewrite Hv. cbn.
      eexists [_; _; _], _. split; [reflexivity|]. split; reflexivity.
Qed.

(** *** What the loops do *)

(** Where both streams exist, each write of the receive loop directly
    follows the rescaling of its packet between them. *)
Lemma receive_loop_rescales lib p ready : forall prev,
  each_preceded (write_after_rescale lib p) prev (trace (receive_loop lib p ready)).
Proof.
  induction ready as [|pkt rest IH]; intros prev.
  - simpl. auto.
  - rewrite receive_loop_cons.
    destruct (rescale_source p) as [src|] eqn:Hsrc;
      [destruct (rescale_target p) as [dst|] eqn:Hdst|];
      cbn [trace fst each_preceded write_after_rescale]; auto.
    split; [exact I|]. split; [exact I|]. split; [|apply IH].
    exists pkt, src, dst. auto.
Qed.

Lemma main_loop_rescales lib p source : forall enc prev,
  each_preceded (write_after_rescale lib p) prev (trace (main_loop lib p source enc)).
Proof.
  induction source as [|pkt rest IH]; intros enc prev.
  - simpl. auto.
  - destruct (main_loop_cases lib p pkt rest enc)
      as [[-> _] | [(rc & enc1 & -> & _) | [(rc & enc1 & -> & _) | (rc & enc1 & -> & _)]]];
      cbn [trace fst each_preceded write_after_rescale].
    + split; [exact I|]. split; [exact I|]. apply IH.
    + repeat split.
    + split; [exact I|]. split; [exact I|].
      apply each_preceded_app. split.
      * apply receive_loop_rescales.
      * cbn [each_preceded write_after_rescale]. split; [exact I|]. apply IH.
    + split; [exact I|]. split; [exact I|]. apply receive_loop_rescales.
Qed.

Lemma main_loop_filter lib p source : forall enc,
  filter is_codec_or_mux (trace (main_loop lib p source enc))
  = filter is_codec_or_mux (trace (main_loop lib p (filter (selected p) source) enc))
  /\ snd (main_loop lib p source enc)
     = snd (main_loop lib p (filter (selected p) source) enc).
Proof.
  induction source as [|pkt rest IH]; intros enc.
  - split; reflexivity.
  - cbn [filter].
    destruct (selected p pkt) eqn:H; unfold selected in H.
    + destruct (avcodec_send_frame lib enc (Some (input_frame p))) as [rc enc1] eqn:Hs.
      destruct (rc <? 0) eqn:Hrc.
      * rewrite (@main_loop_break lib p pkt rest enc rc enc1 H Hs Hrc),
          (@main_loop_break lib p pkt (filter (selected p) rest) enc rc enc1 H Hs Hrc).
        split; reflexivity.
      * destruct (receive_loop_outcome lib p (queue enc1)) as [Hr|Hr].
        -- rewrite (@main_loop_encode lib p pkt rest enc rc enc1 H Hs Hrc Hr),
             (@main_loop_encode lib p pkt (filter (selected p) rest) enc rc enc1
                H Hs Hrc Hr).
           cbn [trace fst snd filter is_codec_or_mux].
           rewrite !filter_app. cbn [filter is_codec_or_mux].
           destruct (IH (set_queue enc1 [])) as [IH1 IH2].
           rewrite IH1, IH2. split; reflexivity.
        -- rewrite (@main_loop_halt lib p pkt rest enc rc enc1 _ H Hs Hrc Hr),
             (@main_loop_halt lib p pkt (filter (selected p) rest) enc rc enc1 _
                H Hs Hrc Hr).
           split; reflexivity.
    + rewrite (@main_loop_other lib p pkt rest enc H).
      cbn [trace fst snd filter is_codec_or_mux].
      apply IH.
Qed.

(** A view that ignores the three calls of the receive loop sees nothing
    of it. *)
Lemma receive_loop_silent {B} (f : Event -> option B) lib p ready :
  (forall o, f (Ev_avcodec_receive_packet o) = None) ->
  (forall q a b, f (Ev_av_packet_rescale_ts q a b) = None) ->
  (forall q, f (Ev_av_interleaved_write_frame q) = None) ->
  filter_map f (trace (receive_loop lib p ready)) = [].
Proof.
  intros H1 H2 H3. induction ready as [|pkt rest IH].
  - unfold trace. simpl. now rewrite H1.
  - rewrite receive_loop_cons.
    destruct (rescale_source p), (rescale_target p);
      cbn [trace fst filter_map]; rewrite ?H1, ?H2, ?H3; auto.
Qed.

Lemma receive_loop_filter (f : Event -> bool) lib p ready :
  (forall o, f (Ev_avcodec_receive_packet o) = true) ->
  (forall q a b, f (Ev_av_packet_rescale_ts q a b) = true) ->
  (forall q, f (Ev_av_interleaved_write_frame q) = true) ->
  filter f (trace (receive_loop lib p ready)) = trace (receive_loop lib p ready).
Proof.
  intros H1 H2 H3. induction ready as [|pkt rest IH].
  - unfold trace. simpl. now rewrite H1.
  - rewrite receive_loop_cons.
    destruct (rescale_source p), (rescale_target p);
      cbn [trace fst filter]; rewrite ?H1, ?H2, ?H3; auto.
    now rewrite IH.
Qed.

(** The only frame the loop ever hands to the encoder is [input_frame],
    and it is never the null frame. *)
Lemma main_loop_sends_input_frame lib p source : forall enc f,
  In f (filter_map sent_frame (trace (main_loop lib p source enc))) ->
  f = Some (input_frame p).
Proof.
  induction source as [|pkt rest IH]; intros enc f.
  - simpl. tauto.
  - destruct (main_loop_cases lib p pkt rest enc)
      as [[-> _] | [(rc & enc1 & -> & _) | [(rc & enc1 & -> & _) | (rc & enc1 & -> & _)]]];
      cbn [trace fst filter_map sent_frame].
    + apply IH.
    + simpl. intros [<-|[]]. reflexivity.
    + rewrite filter_map_app, receive_loop_silent by reflexivity.
      cbn [app filter_map sent_frame]. intros [<-|H]; [reflexivity|].
      eapply IH. exact H.
    + rewrite receive_loop_silent by reflexivity.
      intros [<-|[]]. reflexivity.
Qed.

(** When the flush loop is over, nothing is ready: one more
    [avcodec_receive_packet] yields no packet. *)
Lemma flush_leaves_nothing_ready lib p enc t enc' :
  main_flush lib p enc = (t, Next enc') ->
  avcodec_receive_packet enc' = (AVERROR_EAGAIN, None, enc').
Proof.
  destruct (receive_loop_outcome lib p (queue enc)) as [Hr|Hr].
  - rewrite (main_flush_Next lib p enc Hr). intros [= _ <-]. reflexivity.
  - rewrite (main_flush_Stop lib p enc Hr). discriminate.
Qed.

(** Setup allocates the output context and later only sets its [pb]; the
    slot [streams[video_stream_id]] that every rescaling names as its
    target is therefore outside the stream array in every run. *)
Lemma output_has_no_streams lib argv t p :
  main_setup lib argv = (t, Next p) ->
  streams (output_format_context p) = [] /\ rescale_target p = None.
Proof.
  unfold_setup.
  repeat (next_test; cbn [fst snd app]); try discriminate.
  all: intros [= <- <-]; unfold rescale_target, stream_at;
    cbn [output_format_context video_stream_id set_pb streams].
  all: split; [reflexivity|].
  all: match goal with |- (if ?c then _ else _) = _ => destruct c end;
    [reflexivity|].
  all: now destruct (Z.to_nat _).
Qed.

(** *** Runs of [main]: the output slot is missing *)

Lemma main_loop_dry lib p source :
  rescale_target p = None ->
  forall enc,
    (exists enc',
       snd (main_loop lib p source enc) = Next enc' /\
       forallb is_dry (trace (main_loop lib p source enc)) = true)
    \/ (snd (main_loop lib p source enc) = Stop Undefined /\
        exists pre pkt,
          trace (main_loop lib p source enc)
          = pre ++ [Ev_avcodec_receive_packet (Some pkt)] /\
          forallb is_dry pre = true).
Proof.
  intros Ht. induction source as [|pkt rest IH]; intros enc.
  - left. exists enc. split; reflexivity.
  - cbn [main_loop].
    destruct (stream_index pkt =? video_stream_index p) eqn:H.
    + destruct (avcodec_send_frame lib enc (Some (input_frame p))) as [rc enc1] eqn:Hs.
      destruct (rc <? 0) eqn:Hrc.
      * left. exists enc1. unfold cerr. run_calls.
        split; reflexivity.
      * run_calls. rewrite (receive_loop_dry lib _ (queue enc1) Ht).
        destruct (queue enc1) as [|q qs].
        -- rewrite (bind_Next _ eq_refl). run_calls.
           destruct (IH (set_queue enc1 [])) as [(enc' & Hn & Hd)|(Hu & pre & q & Hp & Hd)].
           ++ left. exists enc'. split; [exact Hn|].
              cbn [app forallb is_dry andb]. exact Hd.
           ++ right. split; [exact Hu|].
              exists (Ev_av_read_frame (Some pkt)
                        :: Ev_avcodec_send_frame (Some (input_frame p)) rc
                        :: Ev_avcodec_receive_packet None
                        :: Ev_av_packet_unref :: pre), q.
              cbn [app]. unfold trace in Hp. rewrite Hp. split; [reflexivity|exact Hd].
        -- rewrite (bind_Stop _ eq_refl). cbn [fst snd].
           right. split; [reflexivity|].
           exists [Ev_av_read_frame (Some pkt);
                   Ev_avcodec_send_frame (Some (input_frame p)) rc], q.
           split; reflexivity.
    + run_calls.
      destruct (IH enc) as [(enc' & Hn & Hd)|(Hu & pre & q & Hp & Hd)].
      * left. exists enc'. split; [exact Hn|exact Hd].
      * right. split; [exact Hu|].
        exists (Ev_av_read_frame (Some pkt) :: Ev_av_packet_unref :: pre), q.
        cbn [app]. unfold trace in Hp. rewrite Hp. split; [reflexivity|exact Hd].
Qed.

(** What a run does after setup when the output has no stream for
    [video_stream_id]: it goes through the loop, the flush and the
    teardown and returns 0 if the encoder never hands out a packet;
    otherwise it ends, undefined, right after the first packet it
    receives. *)
Lemma main_rest_dry lib p :
  rescale_target p = None ->
  (main_rest lib p
   = (streaming_events lib p ++ trace (main_teardown p) ++ [success_line],
      Stop (Returned 0))
   /\ forallb is_dry (streaming_events lib p) = true)
  \/ (exists pre pkt,
        main_rest lib p
        = (pre ++ [Ev_avcodec_receive_packet (Some pkt)], Stop Undefined)
        /\ forallb is_dry pre = true).
Proof.
  intros Ht. unfold streaming_events.
  destruct (main_rest_cases lib p) as [[Hm (enc & Hl & Hr)]|[Hm H]];
    rewrite Hm; clear Hm; unfold streaming_events.
  - left. split; [reflexivity|].
    destruct (main_loop_dry lib p (demux (input_format_context p)) Ht (video_encoder_ctx p))
      as [(enc' & Hn & Hd)|(Hu & _)]; [|congruence].
    rewrite Hl, forallb_app, Hd. cbn [andb].
    rewrite (receive_loop_dry lib _ (queue enc) Ht) in Hr |- *.
    destruct (queue enc); [reflexivity|discriminate Hr].
  - right.
    destruct (main_loop_dry lib p (demux (input_format_context p)) Ht (video_encoder_ctx p))
      as [(enc' & Hn & Hd)|(Hu & pre & q & Hp & Hd)].
    + destruct H as [H|(enc & Hl & Hr)]; [congruence|].
      rewrite Hl. rewrite (receive_loop_dry lib _ (queue enc) Ht) in Hr |- *.
      destruct (queue enc) as [|q qs]; [discriminate Hr|].
      exists (trace (main_loop lib p (demux (input_format_context p))
                       (video_encoder_ctx p))), q.
      split; [reflexivity|exact Hd].
    + rewrite Hu, app_nil_r. exists pre, q. split; [|exact Hd].
      now rewrite Hp.
Qed.

(** Every run of [main], by cases. *)
Lemma main_cases lib argv :
  match main_setup lib argv with
  | (t, Stop o) => main lib argv = (t, Stop o)
  | (t, Next p) =>
      (main lib argv
       = (t ++ streaming_events lib p ++ trace (main_teardown p) ++ [success_line],
          Stop (Returned 0))
       /\ forallb is_dry (streaming_events lib p) = true)
      \/ (exists pre pkt,
            main lib argv
            = (t ++ pre ++ [Ev_avcodec_receive_packet (Some pkt)], Stop Undefined)
            /\ forallb is_dry pre = true)
  end.
Proof.
  destruct (main_setup lib argv) as [t [p|o]] eqn:Hs.
  - rewrite (main_after_setup _ _ Hs).
    destruct (output_has_no_streams _ _ Hs) as [_ Ht].
    destruct (main_rest_dry lib p Ht) as [[-> Hd]|(pre & q & -> & Hd)].
    + left. split; [reflexivity|exact Hd].
    + right. exists pre, q. split; [reflexivity|exact Hd].
  - now apply main_stopped.
Qed.
(** ** Properties of the program *)

(** C1: the frame the loop submits to the encoder is the frame
    [av_frame_alloc] returned during setup, exactly as allocated: no packet
    is decoded into it and it is not scaled. On a source with an audio
    and a video packet and an encoder that keeps the frames it is given,
    the loop makes one codec call for the video packet, the submission of
    that blank frame; the encoder ends up holding that frame and nothing
    else, while the payload of the video packet read from the source goes
    nowhere; and the run returns 0. *)
Theorem encoder_receives_undecoded_frame :
  let source := [Sample.audio_packet; Sample.video_packet] in
  let lib := Sample.library (Sample.source source) 0 0 Sample.send_buffering in
  let r := main lib (Sample.argv "500") in
  let p := Sample.pipeline source in
  snd (main_setup lib (Sample.argv "500")) = Next p /\
  av_frame_alloc lib 0 = Some (input_frame p) /\
  filter is_codec_or_mux (trace (main_loop lib p source (video_encoder_ctx p)))
  = [Ev_avcodec_send_frame (Some (input_frame p)) 0;
     Ev_avcodec_receive_packet None] /\
  (exists enc,
     snd (main_loop lib p source (video_encoder_ctx p)) = Next enc /\
     held enc = [input_frame p] /\ queue enc = []) /\
  input_frame p = Sample.blank_frame /\
  filter_map sent_frame (trace r) = [Some Sample.blank_frame] /\
  exit_of r = Returned 0.
Proof.
  vm_compute. repeat split.
  eexists. repeat split.
Qed.

(** C2: a run in which [avcodec_send_frame] fails on the first video
    packet prints the error line, leaves the loop, and then still prints
    the success line and returns 0. *)
Theorem encode_failure_exits_zero :
  let lib := Sample.library (Sample.source [Sample.video_packet; Sample.video_packet])
               0 0 Sample.send_failing in
  let r := main lib (Sample.argv "500") in
  filter_map sent_frame (trace r) = [Some Sample.blank_frame] /\
  stderr r = ["Error sending a frame for encoding"] /\
  stdout r = ["Conversion completed successfully!"] /\
  exit_of r = Returned 0.
Proof. vm_compute. repeat split. Qed.

(** C3: the flush is the receive loop alone; the null frame that tells
    the encoder the stream has ended is never sent. With an encoder that
    holds its frames until then, two video packets lead to two frames
    held, no packet written at all, and a return of 0, although sending
    the null frame at that point would have made two packets ready. *)
Theorem flush_never_signals_end_of_stream :
  let source := [Sample.video_packet; Sample.video_packet] in
  let lib := Sample.library (Sample.source source) 0 0 Sample.send_buffering in
  let r := main lib (Sample.argv "500") in
  let p := Sample.pipeline source in
  snd (main_setup lib (Sample.argv "500")) = Next p /\
  filter_map sent_frame (trace r)
  = [Some Sample.blank_frame; Some Sample.blank_frame] /\
  filter_map written_packet (trace r) = [] /\
  exit_of r = Returned 0 /\
  exists enc enc',
    snd (main_loop lib p source (video_encoder_ctx p)) = Next enc /\
    snd (main_flush lib p enc) = Next enc' /\
    trace (main_flush lib p enc) = [Ev_avcodec_receive_packet None] /\
    held enc' = [Sample.blank_frame; Sample.blank_frame] /\
    queue (snd (avcodec_send_frame lib enc' None))
    = [Sample.packet_of Sample.blank_frame; Sample.packet_of Sample.blank_frame].
Proof.
  vm_compute. repeat split.
  eexists _, _. repeat split.
Qed.

(** C4, as the program behaves: a run that completes setup and whose
    loop and flush run to their end, whether the loop reads the whole
    source or is left on an encode failure, writes the trailer and runs
    the whole release sequence, once, with nothing released before it or
    after it; a run that ends during setup ends right where it stands and
    releases nothing at all. *)
Theorem teardown_only_after_setup lib argv :
  exit_of (main lib argv) <> Undefined ->
  match main_setup lib argv with
  | (t, Next p) =>
      (exists tail,
         trace (main lib argv)
         = t ++ streaming_events lib p ++ trace (main_teardown p) ++ tail /\
         forallb (fun e => negb (is_release e)) tail = true) /\
      trace (main_teardown p)
      = [Ev_av_write_trailer;
         if negb (Z.land (oformat_flags (output_format_context p)) AVFMT_NOFILE =? 0)
         then Ev_avio_context_free else Ev_avio_closep;
         Ev_av_frame_free (output_frame p); Ev_sws_freeContext;
         Ev_av_frame_free (input_frame p); Ev_av_packet_free;
         Ev_avcodec_free_context; Ev_avcodec_parameters_destroy;
         Ev_avformat_close_input] /\
      forallb (fun e => negb (is_release e)) (t ++ streaming_events lib p) = true
  | (t, Stop o) =>
      main lib argv = (t, Stop o) /\
      forallb (fun e => negb (is_release e)) t = true
  end.
Proof.
  intros Hdef.
  pose proof (setup_events_only lib argv) as Hset.
  pose proof (main_cases lib argv) as Hm.
  destruct (main_setup lib argv) as [t [p|o]] eqn:Hs; cbn [trace fst] in Hset.
  - destruct Hm as [[Hm _]|(pre & q & Hm & _)].
    + split; [|split].
      * exists [success_line]. rewrite Hm. split; reflexivity.
      * apply teardown_trace.
      * rewrite forallb_app. apply andb_true_iff. split.
        -- rewrite forallb_forall in *. intros e He.
           specialize (Hset e He). now destruct e.
        -- pose proof (streaming_events_only lib p) as H.
           rewrite forallb_forall in *. intros e He.
           specialize (H e He). now destruct e.
    + exfalso. apply Hdef. now rewrite Hm.
  - split; [exact Hm|].
    rewrite forallb_forall in *. intros e He.
    specialize (Hset e He). now destruct e.
Qed.

Lemma teardown_only_after_setup_witness :
  let source := [Sample.video_packet; Sample.video_packet] in
  let lib := Sample.library (Sample.source source) 0 0 Sample.send_failing in
  let r := main lib (Sample.argv "500") in
  let p := Sample.pipeline source in
  stderr r = ["Error sending a frame for encoding"] /\
  (exists tail,
     trace r
     = trace (main_setup lib (Sample.argv "500")) ++ streaming_events lib p
       ++ trace (main_teardown p) ++ tail /\
     forallb (fun e => negb (is_release e)) tail = true) /\
  forallb (fun e => negb (is_release e))
    (trace (main_setup lib (Sample.argv "500")) ++ streaming_events lib p) = true.
Proof.
  intros source lib r p.
  split; [reflexivity|].
  assert (exit_of (main lib (Sample.argv "500")) <> Undefined) as Hdef
    by (vm_compute; discriminate).
  pose proof (@teardown_only_after_setup lib (Sample.argv "500") Hdef) as H.
  change (main_setup lib (Sample.argv "500"))
    with (trace (main_setup lib (Sample.argv "500")), Next p) in H at 1.
  cbv beta iota in H. destruct H as (H1 & _ & H3).
  split; [exact H1|exact H3].
Defined.

(** C4, as stated, fails: when [avformat_find_stream_info] fails, the
    input has been opened, the process returns -1, and the input is never
    closed (nor anything else released). *)
Lemma setup_failure_releases_nothing :
  let lib := Sample.library (Sample.source []) (-1) 0 Sample.send_eager in
  let r := main lib (Sample.argv "500") in
  In (Ev_avformat_open_input "in.mp4" 0) (trace r) /\
  exit_of r = Returned (-1) /\
  ~ In Ev_avformat_close_input (trace r) /\
  filter is_release (trace r) = [].
Proof.
  vm_compute. repeat split; auto.
  intros H. repeat (destruct H as [H|H]; try discriminate H). exact H.
Qed.

(** C5, within the range of [int]: when [std::stoi] yields [k] and
    [k * 1000] fits a 32-bit [int], every encoder context passed to
    [avcodec_open2] has bit rate [k * 1000], whatever bit rate the
    library copied into it from the parameters of the source stream. *)
Theorem opened_bit_rate lib argv k ctx rc :
  stoi (nth 3 argv "") = inr k ->
  INT_MIN <= k * 1000 <= INT_MAX ->
  In (Ev_avcodec_open2 ctx rc) (trace (main lib argv)) ->
  bit_rate ctx = k * 1000.
Proof.
  intros Hk Hrange Hin.
  rewrite <- (int_mul_exact _ _ Hrange).
  destruct (main_trace lib argv) as (rest & Ht & Hrest).
  rewrite Ht in Hin. apply in_app_or in Hin. destruct Hin as [Hin|Hin].
  - eapply setup_open2; eauto.
  - apply (forallb_In _ _ _ Hrest) in Hin. discriminate Hin.
Qed.

Lemma opened_bit_rate_witness :
  bit_rate (mkCodecContext Sample.h264 500000 640 480 [] []) = 500 * 1000.
Proof.
  apply (@opened_bit_rate
           (Sample.library (Sample.source []) 0 0 Sample.send_eager)
           (Sample.argv "500") 500 _ 0).
  - reflexivity.
  - unfold INT_MIN, INT_MAX. lia.
  - vm_compute. do 6 right. left. reflexivity.
Defined.

(** C5, as stated, fails: the argument 3000000 parses, and the encoder
    is opened with the wrapped product, not with 3000000000. *)
Lemma large_bitrate_wraps :
  let lib := Sample.library (Sample.source []) 0 0 Sample.send_eager in
  stoi "3000000" = inr 3000000 /\
  exists ctx rc,
    In (Ev_avcodec_open2 ctx rc) (trace (main lib (Sample.argv "3000000"))) /\
    bit_rate ctx = -1294967296 /\
    bit_rate ctx <> 3000000 * 1000.
Proof.
  split; [reflexivity|].
  exists (mkCodecContext Sample.h264 (-1294967296) 640 480 [] []), 0.
  split; [vm_compute; do 6 right; left; reflexivity|].
  split; [reflexivity|]. cbn. discriminate.
Qed.

(** C6: wherever [av_find_best_stream] is called in a run, the call
    just before it is the allocation of the output context, so nothing
    came between the two, and the context it is given has no streams. *)
Theorem lookup_sees_no_stream lib argv pre ctx type ret post :
  trace (main lib argv) = pre ++ Ev_av_find_best_stream ctx type ret :: post ->
  streams ctx = [] /\
  exists pre' file rc,
    pre = pre' ++ [Ev_avformat_alloc_output_context2 "3gpp" file rc].
Proof.
  intros Ht.
  assert (each_preceded lookup_after_alloc None (trace (main lib argv))) as H.
  { destruct (main_trace lib argv) as (rest & -> & Hrest).
    apply each_preceded_app. split; [apply setup_lookup|].
    eapply each_preceded_class; [|exact Hrest].
    intros [] He q; try exact I; discriminate He. }
  pose proof (each_preceded_at _ _ _ _ _ H Ht) as (Hs & file & rc & Hl).
  split; [exact Hs|].
  apply last_event_Some in Hl. destruct Hl as [[_ Hl] | [pre' ->]]; [discriminate|].
  now exists pre', file, rc.
Qed.

Lemma lookup_sees_no_stream_witness :
  let r := main (Sample.library (Sample.source []) 0 0 Sample.send_eager)
                (Sample.argv "500") in
  streams (mkFormatContext [] 0 None []) = [] /\
  exists pre' file rc,
    firstn 8 (trace r) = pre' ++ [Ev_avformat_alloc_output_context2 "3gpp" file rc].
Proof.
  apply (@lookup_sees_no_stream
           (Sample.library (Sample.source []) 0 0 Sample.send_eager)
           (Sample.argv "500") _ _ AVMEDIA_TYPE_VIDEO 0
           (skipn 9 (trace (main (Sample.library (Sample.source []) 0 0 Sample.send_eager)
                                 (Sample.argv "500"))))).
  vm_compute. reflexivity.
Defined.

(** C7: a run that completes setup has fixed one stream index, that of
    the first video stream of the source, and enters the loop with it. A
    packet of any other stream is read and unreferenced and nothing
    else: it prints nothing and leaves the encoder as it was. So the loop
    over a source performs the same codec and muxer calls, prints the same
    lines and ends in the same way, with the same encoder state, as the
    loop over the packets of the selected stream alone. *)
Theorem other_streams_discarded lib argv t p :
  main_setup lib argv = (t, Next p) ->
  video_stream_index p = find_video_stream (streams (input_format_context p)) 0 /\
  (exists st,
     stream_at (input_format_context p) (video_stream_index p) = Some st /\
     codec_type (codecpar st) = AVMEDIA_TYPE_VIDEO) /\
  (exists rest,
     trace (main lib argv)
     = t ++ trace (main_loop lib p (demux (input_format_context p))
                     (video_encoder_ctx p)) ++ rest) /\
  (forall pkt rest enc,
     stream_index pkt <> video_stream_index p ->
     main_loop lib p (pkt :: rest) enc
     = (Ev_av_read_frame (Some pkt) :: Ev_av_packet_unref
          :: trace (main_loop lib p rest enc),
        snd (main_loop lib p rest enc))) /\
  (forall source enc,
     filter is_codec_or_mux (trace (main_loop lib p source enc))
     = filter is_codec_or_mux
         (trace (main_loop lib p (filter (selected p) source) enc)) /\
     snd (main_loop lib p source enc)
     = snd (main_loop lib p (filter (selected p) source) enc)).
Proof.
  intros Hs. split; [|split; [|split; [|split]]].
  - now destruct (setup_selects_video _ _ Hs) as [H _].
  - now destruct (setup_selects_video _ _ Hs) as [_ H].
  - rewrite (main_after_setup _ _ Hs). cbn [trace fst].
    destruct (main_rest_cases lib p) as [[-> _]|[-> _]]; cbn [fst];
      unfold streaming_events; rewrite <- ?app_assoc; eexists; reflexivity.
  - intros pkt rest enc Hne. apply main_loop_other. now apply Z.eqb_neq.
  - intros source enc. apply main_loop_filter.
Qed.

Lemma other_streams_discarded_witness :
  let source := [Sample.audio_packet; Sample.video_packet] in
  let lib := Sample.library (Sample.source source) 0 0 Sample.send_buffering in
  let p := Sample.pipeline source in
  main_setup lib (Sample.argv "500")
  = (trace (main_setup lib (Sample.argv "500")), Next p) /\
  filter is_codec_or_mux (trace (main_loop lib p source (video_encoder_ctx p)))
  = filter is_codec_or_mux
      (trace (main_loop lib p [Sample.video_packet] (video_encoder_ctx p))).
Proof.
  intros source lib p.
  assert (main_setup lib (Sample.argv "500")
          = (trace (main_setup lib (Sample.argv "500")), Next p)) as Hs
    by reflexivity.
  split; [exact Hs|].
  destruct (@other_streams_discarded lib (Sample.argv "500") _ p Hs)
    as (_ & _ & _ & _ & H).
  exact (proj1 (H source (video_encoder_ctx p))).
Defined.


(** C9: when the source, as the program sees it after
    [avformat_find_stream_info], has no video stream, the run does not
    return 0 and makes not a single call that creates, opens, writes or
    finalises the output; on a well-formed command line it returns -1 with
    exactly one diagnostic line on [std::cerr]. *)
Theorem no_video_stream_fails_setup lib argv :
  (forall s,
     In s (streams (snd (avformat_find_stream_info lib
                           (snd (avformat_open_input lib (nth 1 argv "")))))) ->
     codec_type (codecpar s) <> AVMEDIA_TYPE_VIDEO) ->
  exit_of (main lib argv) <> Returned 0 /\
  forallb (fun e => negb (is_output e)) (trace (main lib argv)) = true /\
  (forall k,
     List.length argv = 4%nat ->
     stoi (nth 3 argv "") = inr k ->
     exit_of (main lib argv) = Returned (-1) /\
     exists msg, stderr (main lib argv) = [msg]).
Proof.
  intros Hv.
  destruct (Nat.eq_dec (List.length argv) 4) as [Hn|Hn].
  - destruct (stoi (nth 3 argv "")) as [e|k] eqn:Hk.
    + rewrite (main_uncaught lib argv Hn Hk).
      split; [discriminate|]. split; [reflexivity|]. discriminate.
    + destruct (setup_without_video lib argv Hn Hk Hv)
        as (t & msg & Hs & Hout & Herr).
      rewrite (main_stopped _ _ Hs). unfold exit_of, stderr, trace. cbn [fst snd].
      split; [discriminate|]. split.
      * rewrite forallb_app, Hout. reflexivity.
      * intros _ _ _. split; [reflexivity|].
        exists msg. rewrite filter_map_app, Herr. reflexivity.
  - destruct argv as [|program rest] eqn:Ha.
    + rewrite main_no_argv.
      split; [discriminate|]. split; [reflexivity|]. intros k Hn'. contradiction.
    + rewrite (@main_usage lib (program :: rest) Hn) by discriminate.
      split; [discriminate|]. split; [reflexivity|]. intros k Hn'. contradiction.
Qed.

Lemma no_video_stream_fails_setup_witness :
  let r := main (Sample.library Sample.audio_only 0 0 Sample.send_eager)
                (Sample.argv "500") in
  exit_of r = Returned (-1) /\
  stderr r = ["Failed to find video stream"] /\
  forallb (fun e => negb (is_output e)) (trace r) = true.
Proof.
  intros r.
  destruct (@no_video_stream_fails_setup
              (Sample.library Sample.audio_only 0 0 Sample.send_eager)
              (Sample.argv "500")) as (_ & Hout & Hexit).
  - intros s [<-|[]]. discriminate.
  - destruct (Hexit 500 eq_refl eq_refl) as (He & _).
    split; [exact He|]. split; [reflexivity|exact Hout].
Defined.

(** C10: there is a command line with three arguments after the
    program name whose last argument is not a number; on it, whatever the
    library would do, [std::stoi] throws [std::invalid_argument], nothing
    catches it, and the process ends before any call to the library and
    without a line on [std::cout] or [std::cerr]. *)
Theorem bad_bitrate_terminates :
  exists argv : list string,
    List.length argv = 4%nat /\
    stoi (nth 3 argv "") = inl std_invalid_argument /\
    forall lib,
      exit_of (main lib argv) = Uncaught std_invalid_argument /\
      trace (main lib argv) = [] /\
      stdout (main lib argv) = [] /\
      stderr (main lib argv) = [].
Proof.
  exists (Sample.argv "fast"). split; [reflexivity|]. split; [reflexivity|].
  intros lib.
  rewrite (@main_uncaught lib (Sample.argv "fast") std_invalid_argument);
    repeat split; reflexivity.
Qed.

(** ** Further properties of the program *)

(** *** More about traces and setup *)

Lemma ends_in_diagnostic_split t :
  ends_in_diagnostic t = true ->
  exists pre msg, t = pre ++ [Ev_cerr msg] /\ forallb quiet pre = true.
Proof.
  unfold ends_in_diagnostic. destruct (rev t) as [|e r] eqn:E; [discriminate|].
  destruct e; try discriminate. intros H.
  exists (rev r), line. split.
  - apply (f_equal (@rev Event)) in E. rewrite rev_involutive in E. exact E.
  - rewrite forallb_forall in *. intros x Hx. apply H. now apply in_rev.
Qed.

Lemma filter_map_nil_class {B} (f : Event -> option B) (c : Event -> bool) l :
  (forall e, c e = true -> f e = None) ->
  forallb c l = true -> filter_map f l = [].
Proof.
  intros Hc. induction l as [|e l IH]; simpl; auto.
  intros H. apply andb_true_iff in H. destruct H as [He Hl].
  rewrite (Hc e He). auto.
Qed.

Lemma filter_nil_class (f c : Event -> bool) l :
  (forall e, c e = true -> f e = false) ->
  forallb c l = true -> filter f l = [].
Proof.
  intros Hc. induction l as [|e l IH]; simpl; auto.
  intros H. apply andb_true_iff in H. destruct H as [He Hl].
  rewrite (Hc e He). auto.
Qed.

(** Setup on a well-formed command line, test by test. *)
Ltac setup_cases Hn Hk :=
  unfold_setup; rewrite Hn, Hk;
  cbn [Z.of_nat Pos.of_succ_nat Pos.succ Z.eqb Pos.eqb negb];
  repeat (next_test; cbn [fst snd app]).

(** Setup on any command line, test by test. *)
Ltac setup_all := unfold_setup; repeat (next_test; cbn [fst snd app]).

Ltac use_sign :=
  repeat match goal with
         | H : (?rc <? 0) = _ |- context [?rc <? 0] => rewrite H
         end.

Lemma setup_stop_shape lib argv t o :
  main_setup lib argv = (t, Stop o) ->
  (List.length argv <> 4%nat /\ argv <> [] /\
   t = [Ev_cout (usage_line argv)] /\ o = Returned (-1))
  \/ (argv = [] /\ t = [] /\ o = Undefined)
  \/ (List.length argv = 4%nat /\
      exists e, stoi (nth 3 argv "") = inl e /\ t = [] /\ o = Uncaught e)
  \/ (List.length argv = 4%nat /\ o = Returned (-1) /\ ends_in_diagnostic t = true).
Proof.
  intros Hs.
  destruct (Nat.eq_dec (List.length argv) 4) as [Hn|Hn].
  - right; right. destruct (stoi (nth 3 argv "")) as [e|k] eqn:Hk.
    + left. split; [exact Hn|]. exists e.
      pose proof (main_uncaught lib argv Hn Hk) as Hm.
      rewrite (main_stopped _ _ Hs) in Hm. injection Hm as -> ->. auto.
    + right. split; [exact Hn|].
      pose proof (setup_stop_outcomes _ _ Hs) as Ho.
      revert Hs. setup_cases Hn Hk; try discriminate.
      all: intros [= <- <-].
      all: try (split; reflexivity).
      all: destruct Ho as [Ho|[(e & Ho & _)|(Ho & Ha & _)]];
        try discriminate Ho; subst argv; discriminate Hn.
  - destruct argv as [|program rest] eqn:Ha.
    + right; left. pose proof (main_no_argv lib) as Hm.
      rewrite (main_stopped _ _ Hs) in Hm. injection Hm as -> ->. auto.
    + left. pose proof (@main_usage lib (program :: rest) Hn ltac:(discriminate)) as Hm.
      rewrite (main_stopped _ _ Hs) in Hm. injection Hm as -> ->.
      repeat split; auto. discriminate.
Qed.

Lemma setup_next_quiet lib argv t p :
  main_setup lib argv = (t, Next p) ->
  List.length argv = 4%nat /\ forallb quiet t = true.
Proof.
  intros Hs.
  destruct (Nat.eq_dec (List.length argv) 4) as [Hn|Hn].
  - split; [exact Hn|].
    destruct (stoi (nth 3 argv "")) as [e|k] eqn:Hk.
    + exfalso. revert Hs. unfold main_setup. rewrite Hn, Hk. discriminate.
    + revert Hs. setup_cases Hn Hk; try discriminate.
      all: intros [= <- <-]; reflexivity.
  - exfalso. revert Hs. unfold main_setup.
    destruct (Z.of_nat (List.length argv) =? 4) eqn:E.
    + apply Z.eqb_eq in E. lia.
    + destruct argv; discriminate.
Qed.

Lemma setup_mux lib argv :
  match main_setup lib argv with
  | (t, Next _) => filter_map mux_call t = [Mux_header true]
  | (t, Stop _) =>
      filter_map mux_call t = [] \/ filter_map mux_call t = [Mux_header false]
  end.
Proof.
  setup_all; cbn [filter_map mux_call]; use_sign; cbn [negb]; auto.
Qed.

Lemma setup_io lib argv :
  let out := nth 2 argv "" in
  match main_setup lib argv with
  | (t, Next p) =>
      filter is_output_io t
      = (if negb (Z.land (oformat_flags (output_format_context p)) AVFMT_NOFILE =? 0)
         then [Ev_avio_alloc_context 4096]
         else [Ev_avio_open out (fst (avio_open lib out AVIO_FLAG_WRITE))])
      /\ (negb (Z.land (oformat_flags (output_format_context p)) AVFMT_NOFILE =? 0)
          = false ->
          0 <= fst (avio_open lib out AVIO_FLAG_WRITE))
  | (t, Stop _) =>
      filter is_output_io t = [] \/
      filter is_output_io t = [Ev_avio_alloc_context 4096] \/
      exists rc, filter is_output_io t = [Ev_avio_open out rc]
  end.
Proof.
  setup_all; cbn [filter is_output_io]; eauto.
  all: cbn [output_format_context set_pb oformat_flags] in *.
  all: try (exfalso; congruence).
  all: repeat match goal with
         | H : avio_open _ _ _ = _ |- _ => rewrite H
         end; cbn [fst].
  all: split; [reflexivity|]; intros; try discriminate.
  all: match goal with
       | H : (_ <? 0) = false |- 0 <= _ => apply Z.ltb_ge in H; exact H
       end.
Qed.


Lemma setup_lookup_result lib argv ctx ty r :
  In (Ev_av_find_best_stream ctx ty r) (trace (main_setup lib argv)) ->
  (r = -1 /\ snd (main_setup lib argv) = Stop (Returned (-1)) /\
   filter_map is_cerr (trace (main_setup lib argv)) = ["Failed to find video stream id"])
  \/ (r <> -1 /\ In Ev_av_packet_alloc (trace (main_setup lib argv))).
Proof.
  unfold trace. setup_all; cbn [In]; intros H;
    repeat (destruct H as [H|H]; try discriminate H); try contradiction.
  all: injection H as <- <- <-.
  all: match goal with
       | H : (_ =? -1) = true |- _ =>
           apply Z.eqb_eq in H; left; split; [exact H|split; reflexivity]
       | H : (_ =? -1) = false |- _ =>
           apply Z.eqb_neq in H; right; split; [exact H|];
           do 9 right; left; reflexivity
       end.
Qed.

Lemma setup_files lib argv e :
  In e (trace (main_setup lib argv)) -> file_named argv e.
Proof.
  unfold trace. setup_all; cbn [In]; intros H;
    repeat (destruct H as [<-|H]); try contradiction; cbn; auto.
Qed.


(** Views of the three kinds of trace a run is made of. *)
Lemma dry_view {B} (f : Event -> option B) l :
  (forall e, is_dry e = true -> f e = None) ->
  forallb is_dry l = true -> filter_map f l = [].
Proof. apply filter_map_nil_class. Qed.

Lemma setup_view {B} (f : Event -> option B) lib argv :
  (forall e, is_setup_event e = true -> f e = None) ->
  filter_map f (trace (main_setup lib argv)) = [].
Proof.
  intros H. apply (filter_map_nil_class f is_setup_event); auto.
  apply setup_events_only.
Qed.

Lemma dry_is_streaming l :
  forallb is_dry l = true -> forallb is_streaming_event l = true.
Proof.
  rewrite !forallb_forall. intros H e He. specialize (H e He).
  destruct e as [| | | | | | | | | | | | | | | | | | | |[q|]| | | | | | | | | | | |];
    (reflexivity || discriminate H).
Qed.

(** *** More about the stream search and the loops *)

Lemma find_video_stream_spec ss : forall i,
  0 <= i ->
  (find_video_stream ss i = -1 /\
   forall s, In s ss -> codec_type (codecpar s) <> AVMEDIA_TYPE_VIDEO)
  \/ (i <= find_video_stream ss i < i + Z.of_nat (List.length ss) /\
      (exists st,
         nth_error ss (Z.to_nat (find_video_stream ss i - i)) = Some st /\
         codec_type (codecpar st) = AVMEDIA_TYPE_VIDEO) /\
      forall j st,
        (j < Z.to_nat (find_video_stream ss i - i))%nat ->
        nth_error ss j = Some st ->
        codec_type (codecpar st) <> AVMEDIA_TYPE_VIDEO).
Proof.
  induction ss as [|s rest IH]; intros i Hi.
  - left. split; [reflexivity|]. intros s [].
  - cbn [find_video_stream].
    destruct (AVMediaType_eqb (codec_type (codecpar s)) AVMEDIA_TYPE_VIDEO) eqn:E.
    + right. rewrite Z.sub_diag. cbn [List.length]. split; [lia|]. split.
      * exists s. split; [reflexivity|].
        destruct (codec_type (codecpar s)); simpl in E; congruence.
      * intros j st Hj. simpl in Hj. lia.
    + assert (codec_type (codecpar s) <> AVMEDIA_TYPE_VIDEO) as Hs
        by (intros Hv; rewrite Hv in E; discriminate E).
      destruct (IH (i + 1)) as [[Hr Hn] | (Hr & (st & Hst & Hv) & Hb)]; [lia| |].
      * left. split; [exact Hr|]. intros x [<-|Hx]; auto.
      * right.
        replace (find_video_stream rest (i + 1) - i)
          with (Z.succ (find_video_stream rest (i + 1) - (i + 1))) by lia.
        rewrite Z2Nat.inj_succ by lia. cbn [List.length]. split; [lia|]. split.
        -- exists st. split; auto.
        -- intros [|j] x Hj Hx.
           ++ injection Hx as <-. exact Hs.
           ++ apply (Hb j x); [lia|exact Hx].
Qed.

Lemma main_loop_none_selected lib p source : forall enc,
  (forall pkt, In pkt source -> stream_index pkt <> video_stream_index p) ->
  forallb (fun e => negb (is_codec_or_mux e)) (trace (main_loop lib p source enc)) = true /\
  snd (main_loop lib p source enc) = Next enc.
Proof.
  induction source as [|pkt rest IH]; intros enc H.
  - split; reflexivity.
  - rewrite (@main_loop_other lib p pkt rest enc).
    + cbn [trace fst snd forallb is_codec_or_mux negb andb].
      apply IH. intros q Hq. apply H. now right.
    + apply Z.eqb_neq. apply H. now left.
Qed.

(** *** The properties *)

(** X1: how a run can end, and what it has printed by then. It returns
    0 with the success line as its only line on [std::cout]; or it
    returns -1 on a well-formed command line with nothing on [std::cout]
    and a diagnostic on [std::cerr] as its very last action and only
    message; or it returns -1 on a wrong number of arguments having done
    nothing but print the usage line on [std::cout]; or it ends by the
    uncaught exception of [std::stoi] having done nothing at all; or its
    behaviour is undefined, either because there is no [argv[0]] to print
    in the usage line, or because setup was completed and the encoder
    handed out a packet, which is the last thing the run did before it
    read the missing stream slot of the output, with nothing on
    [std::cout]. *)
Theorem run_outcomes lib argv :
  let r := main lib argv in
  (exit_of r = Returned 0 /\ List.length argv = 4%nat /\
   stdout r = ["Conversion completed successfully!"])
  \/ (exit_of r = Returned (-1) /\ List.length argv = 4%nat /\
      stdout r = [] /\
      exists pre msg,
        trace r = pre ++ [Ev_cerr msg] /\ forallb quiet pre = true)
  \/ (exit_of r = Returned (-1) /\ List.length argv <> 4%nat /\ argv <> [] /\
      trace r = [Ev_cout (usage_line argv)])
  \/ (exists e,
        exit_of r = Uncaught e /\ List.length argv = 4%nat /\
        stoi (nth 3 argv "") = inl e /\ trace r = [])
  \/ (exit_of r = Undefined /\ argv = [])
  \/ (exit_of r = Undefined /\ List.length argv = 4%nat /\
      stdout r = [] /\
      exists t p pre pkt,
        main_setup lib argv = (t, Next p) /\
        trace r = t ++ pre ++ [Ev_avcodec_receive_packet (Some pkt)] /\
        forallb is_dry pre = true).
Proof.
  cbv zeta. pose proof (main_cases lib argv) as Hm.
  destruct (main_setup lib argv) as [t [p|o]] eqn:Hs.
  - destruct (setup_next_quiet _ _ Hs) as [Hn Hq].
    assert (filter_map is_cout t = []) as Ht.
    { apply (filter_map_nil_class is_cout quiet); auto.
      intros e He; destruct e; (reflexivity || discriminate He). }
    destruct Hm as [[Hm Hd]|(pre & q & Hm & Hd)];
      rewrite ?teardown_trace in Hm; rewrite Hm.
    + left. split; [reflexivity|]. split; [exact Hn|].
      unfold stdout, trace. cbn [fst]. rewrite !filter_map_app, Ht.
      rewrite (dry_view is_cout); auto;
        [|intros e He; destruct e; (reflexivity || discriminate He)].
      cbn. now destruct (negb _).
    + do 5 right. split; [reflexivity|]. split; [exact Hn|]. split.
      * unfold stdout, trace. cbn [fst]. rewrite !filter_map_app, Ht.
        rewrite (dry_view is_cout); auto.
        intros e He; destruct e; (reflexivity || discriminate He).
      * exists t, p, pre, q. auto.
  - rewrite Hm. unfold exit_of, stdout, trace. cbn [fst snd].
    destruct (setup_stop_shape _ _ Hs)
      as [(Hn & Ha & -> & ->) | [(-> & -> & ->)
          | [(Hn & e & He & -> & ->) | (Hn & -> & Hd)]]].
    + right; right; left. auto.
    + do 4 right. left. auto.
    + right; right; right; left. exists e. auto.
    + right; left. split; [reflexivity|]. split; [exact Hn|].
      destruct (ends_in_diagnostic_split _ Hd) as (pre & msg & -> & Hq).
      split; [|now exists pre, msg].
      rewrite filter_map_app.
      rewrite (filter_map_nil_class is_cout quiet pre); auto.
      intros e He; destruct e; (reflexivity || discriminate He).
Qed.

(** X2: what the muxer sees of a run. No run ever hands it a packet.
    A run that returns 0 calls it twice: for the header, which
    succeeds, and for the trailer. A run whose behaviour is undefined has
    not called it at all or has called it once, for a header that
    succeeded, and never for the trailer. Any other run has not called it
    at all or has called it once, for a header that failed. *)
Theorem mux_protocol lib argv :
  let r := main lib argv in
  let calls := filter_map mux_call (trace r) in
  (exit_of r = Returned 0 /\ calls = [Mux_header true; Mux_trailer])
  \/ (exit_of r = Undefined /\ (calls = [] \/ calls = [Mux_header true]))
  \/ (exit_of r <> Returned 0 /\ exit_of r <> Undefined /\
      (calls = [] \/ calls = [Mux_header false])).
Proof.
  cbv zeta. pose proof (setup_mux lib argv) as Hx.
  pose proof (main_cases lib argv) as Hm.
  destruct (main_setup lib argv) as [t [p|o]] eqn:Hs.
  - destruct Hm as [[Hm Hd]|(pre & q & Hm & Hd)]; rewrite Hm;
      unfold exit_of, trace; cbn [fst snd].
    + left. split; [reflexivity|].
      rewrite !filter_map_app, Hx.
      rewrite (dry_view mux_call); auto;
        [|intros e He; destruct e; (reflexivity || discriminate He)].
      cbn. now destruct (negb _).
    + right; left. split; [reflexivity|]. right.
      rewrite !filter_map_app, Hx.
      rewrite (dry_view mux_call); auto.
      intros e He; destruct e; (reflexivity || discriminate He).
  - rewrite Hm. unfold exit_of, trace. cbn [fst snd].
    destruct (setup_stop_shape _ _ Hs)
      as [(Hn & Ha & -> & ->) | [(-> & -> & ->)
          | [(Hn & e & He & -> & ->) | (Hn & -> & Hd)]]].
    + right; right. repeat split; try discriminate. now left.
    + right; left. split; [reflexivity|]. now left.
    + right; right. repeat split; try discriminate. now left.
    + right; right. repeat split; try discriminate. exact Hx.
Qed.

(** X3: how the output is opened and closed. A run that returns 0 has
    either allocated an I/O context of 4096 bytes and freed it with
    [avio_context_free], or opened the file named by the second argument
    with [avio_open], successfully, and closed it with [avio_closep]; it
    never mixes the two. A run that does not return 0 has made at most
    one of the two opening calls and closed nothing. *)
Theorem output_io_pairing lib argv :
  let r := main lib argv in
  let io := filter is_output_io (trace r) in
  let out := nth 2 argv "" in
  (exit_of r = Returned 0 /\
   (io = [Ev_avio_alloc_context 4096; Ev_avio_context_free] \/
    exists rc, 0 <= rc /\ io = [Ev_avio_open out rc; Ev_avio_closep]))
  \/ (exit_of r <> Returned 0 /\
      (io = [] \/ io = [Ev_avio_alloc_context 4096] \/
       exists rc, io = [Ev_avio_open out rc])).
Proof.
  cbv zeta. pose proof (setup_io lib argv) as Hio. cbv zeta in Hio.
  pose proof (main_cases lib argv) as Hm.
  destruct (main_setup lib argv) as [t [p|o]] eqn:Hs.
  - destruct Hio as [Hio Hrc].
    destruct Hm as [[Hm Hd]|(pre & q & Hm & Hd)];
      rewrite ?teardown_trace in Hm; rewrite Hm;
      unfold exit_of, trace; cbn [fst snd].
    + left. split; [reflexivity|].
      rewrite !filter_app, Hio.
      rewrite (filter_nil_class is_output_io is_dry (streaming_events lib p)); auto;
        [|intros e He; destruct e; (reflexivity || discriminate He)].
      destruct (negb _) eqn:E; cbn.
      * now left.
      * right. eexists. split; [apply Hrc; reflexivity|reflexivity].
    + right. split; [discriminate|].
      rewrite !filter_app, Hio.
      rewrite (filter_nil_class is_output_io is_dry pre); auto;
        [|intros e He; destruct e; (reflexivity || discriminate He)].
      cbn. destruct (negb _); cbn; eauto.
  - right. rewrite Hm. unfold exit_of, trace. cbn [fst snd].
    split; [|exact Hio].
    destruct (setup_stop_outcomes _ _ Hs) as [->|[(e & -> & _)|(-> & _)]];
      discriminate.
Qed.
(** X4: the files a run names. Wherever a run opens an input, it is
    the file given as first argument; wherever it allocates an output
    context or opens an output file, it is for the file given as second
    argument, and the output format asked for is always "3gpp". *)
Theorem files_named lib argv e :
  In e (trace (main lib argv)) -> file_named argv e.
Proof.
  destruct (main_trace lib argv) as (rest & -> & Hrest).
  intros H. apply in_app_or in H. destruct H as [H|H].
  - eapply setup_files; eauto.
  - apply (forallb_In _ _ _ Hrest) in H.
    destruct e; try exact I; discriminate H.
Qed.

Lemma files_named_witness :
  file_named (Sample.argv "500") (Ev_avio_open "out.3gp" 0).
Proof.
  apply (@files_named (Sample.library (Sample.source []) 0 0 Sample.send_eager)
           (Sample.argv "500")).
  vm_compute. do 13 right. left. reflexivity.
Defined.

(** X5: what the search for the video stream returns. Either -1, and
    then no stream of the source is a video stream; or the index of a
    video stream of the source such that no stream before it is one. *)
Theorem find_video_stream_first ss :
  let r := find_video_stream ss 0 in
  (r = -1 /\
   forall s, In s ss -> codec_type (codecpar s) <> AVMEDIA_TYPE_VIDEO)
  \/ (0 <= r < Z.of_nat (List.length ss) /\
      (exists st,
         nth_error ss (Z.to_nat r) = Some st /\
         codec_type (codecpar st) = AVMEDIA_TYPE_VIDEO) /\
      forall j st,
        (j < Z.to_nat r)%nat ->
        nth_error ss j = Some st ->
        codec_type (codecpar st) <> AVMEDIA_TYPE_VIDEO).
Proof.
  cbv zeta. destruct (@find_video_stream_spec ss 0 ltac:(lia)) as [H|H].
  - now left.
  - right. now rewrite Z.sub_0_r in H.
Qed.

(** X6: the encoder's packets never reach the muxer. In no run is a
    packet rescaled or written. A run receives at most one packet from
    the encoder, and receiving one is the last thing it does: its
    behaviour is undefined from there, at the read of the missing stream
    slot of the output. *)
Theorem received_packet_ends_run lib argv :
  let r := main lib argv in
  filter_map written_packet (trace r) = [] /\
  (forall pkt src dst, ~ In (Ev_av_packet_rescale_ts pkt src dst) (trace r)) /\
  ((filter_map received_packet (trace r) = [] /\
    (exit_of r = Undefined -> argv = []))
   \/ (exists pre pkt,
         trace r = pre ++ [Ev_avcodec_receive_packet (Some pkt)] /\
         filter_map received_packet pre = [] /\
         exit_of r = Undefined)).
Proof.
  cbv zeta. pose proof (main_cases lib argv) as Hm.
  pose proof (setup_events_only lib argv) as Hset.
  set (c := fun e => is_setup_event e || is_dry e || is_teardown_event e).
  assert (forall l, forallb c l = true ->
            filter_map written_packet l = [] /\
            filter_map received_packet l = [] /\
            forall pkt src dst, ~ In (Ev_av_packet_rescale_ts pkt src dst) l) as Hclass.
  { intros l Hl. split; [|split].
    - apply (filter_map_nil_class written_packet c l); [|exact Hl].
      intros e He; destruct e; (reflexivity || discriminate He).
    - apply (filter_map_nil_class received_packet c l); [|exact Hl].
      intros e He;
        destruct e as [| | | | | | | | | | | | | | | | | | | |[q|]| | | | | | | | | | | |];
        (reflexivity || discriminate He).
    - intros pkt src dst Hin. apply (forallb_In _ _ _ Hl) in Hin. discriminate Hin. }
  assert (forall l (d : Event -> bool),
            (forall e, d e = true -> c e = true) ->
            forallb d l = true -> forallb c l = true) as Hlift.
  { intros l d Hd Hl. rewrite forallb_forall in *. intros e He. apply Hd, Hl, He. }
  assert (forall e, is_setup_event e = true -> c e = true) as Hc1
    by (unfold c; intros e ->; reflexivity).
  assert (forall e, is_dry e = true -> c e = true) as Hc2
    by (unfold c; intros e ->; now rewrite !orb_true_r).
  assert (forall e, is_teardown_event e = true -> c e = true) as Hc3
    by (unfold c; intros e ->; now rewrite !orb_true_r).
  destruct (main_setup lib argv) as [t [p|o]] eqn:Hs; cbn [trace fst] in Hset;
    pose proof (Hlift t _ Hc1 Hset) as Ht.
  - pose proof (teardown_events_only p) as Htd.
    destruct Hm as [[Hm Hd]|(pre & q & Hm & Hd)]; rewrite Hm;
      unfold exit_of; cbn [trace fst snd] in *.
    + match goal with
      | |- filter_map _ ?l = [] /\ _ =>
          assert (forallb c l = true) as Hall
      end.
      { rewrite !forallb_app, Ht, (Hlift _ _ Hc2 Hd), (Hlift _ _ Hc3 Htd). reflexivity. }
      destruct (Hclass _ Hall) as (Hw & Hr & Hn).
      split; [exact Hw|]. split; [exact Hn|]. left. split; [exact Hr|discriminate].
    + assert (forallb c (t ++ pre) = true) as Hall
        by (rewrite forallb_app, Ht; apply (Hlift _ _ Hc2 Hd)).
      destruct (Hclass _ Hall) as (Hw & Hr & Hn).
      rewrite app_assoc. split; [|split].
      * rewrite filter_map_app, Hw. reflexivity.
      * intros pkt src dst Hin. apply in_app_or in Hin.
        destruct Hin as [Hin|[Hin|[]]]; [now apply (Hn pkt src dst)|discriminate Hin].
      * right. exists (t ++ pre), q. auto.
  - rewrite Hm. unfold exit_of. cbn [trace fst snd].
    destruct (Hclass _ Ht) as (Hw & Hr & Hn).
    split; [exact Hw|]. split; [exact Hn|]. left. split; [exact Hr|].
    intros ->.
    destruct (setup_stop_outcomes _ _ Hs) as [H|[(e & H & _)|(_ & H & _)]];
      [discriminate H|discriminate H|exact H].
Qed.

(** X7: how far the loop reads, for any state of the locals. Either
    the loop runs to its end without an error line, having read every
    packet of the source, in order, and then the end of input; or it
    stops on a packet of the selected stream, the packets read being the
    prefix of the source that ends with that packet: it is then either
    left with exactly one error line, on a failed submission, or ended,
    undefined and without an error line, inside its receive loop. In the
    last two cases neither the rest of the source nor the end of input is
    ever read. *)
Theorem loop_reads_a_prefix lib p source enc :
  let r := main_loop lib p source enc in
  ((exists enc', snd r = Next enc') /\
   filter_map is_cerr (trace r) = [] /\
   filter_map read_result (trace r) = map Some source ++ [None])
  \/ (exists pre pkt rest,
        source = pre ++ pkt :: rest /\
        selected p pkt = true /\
        filter_map read_result (trace r) = map Some (pre ++ [pkt]) /\
        (((exists enc', snd r = Next enc') /\
          filter_map is_cerr (trace r) = ["Error sending a frame for encoding"])
         \/ (snd r = Stop Undefined /\ filter_map is_cerr (trace r) = []))).
Proof.
  cbv zeta. revert enc. induction source as [|pkt rest IH]; intros enc.
  - left. split; [now exists enc|]. split; reflexivity.
  - destruct (main_loop_cases lib p pkt rest enc)
      as [[-> _] | [(rc & enc1 & -> & Hsel) | [(rc & enc1 & -> & Hsel & _)
          | (rc & enc1 & -> & Hsel & _)]]];
      cbn [trace fst snd filter_map is_cerr read_result].
    + destruct (IH enc) as [(Hn & H1 & H2) | (pre & q & rest' & -> & Hq & H2 & H)].
      * left. rewrite H1, H2. repeat split; auto.
      * right. exists (pkt :: pre), q, rest'. rewrite H2.
        repeat split; auto.
    + right. exists [], pkt, rest. repeat split; auto. left. split; [now exists enc1|auto].
    + rewrite !filter_map_app.
      rewrite !receive_loop_silent by reflexivity.
      cbn [app filter_map is_cerr read_result].
      destruct (IH (set_queue enc1 []))
        as [(Hn & H1 & H2) | (pre & q & rest' & -> & Hq & H2 & H)].
      * left. rewrite H1, H2. repeat split; auto.
      * right. exists (pkt :: pre), q, rest'. rewrite H2.
        repeat split; auto.
    + rewrite !receive_loop_silent by reflexivity.
      right. exists [], pkt, rest. repeat split; auto.
Qed.

(** X8: the accounts of the loop, for any state of the locals. It
    submits [input_frame] to the encoder once for every packet of the
    selected stream it reads and never otherwise. It unreferences every
    packet it reads except the one it stops on: the unreference calls
    are as many as the packets read when the loop reads the whole source,
    and one fewer when it is left on a failed submission or ended,
    undefined, inside its receive loop. *)
Theorem loop_accounting lib p source enc :
  let r := main_loop lib p source enc in
  let reads := filter_map read_packet (trace r) in
  filter_map sent_frame (trace r)
  = map (fun _ => Some (input_frame p)) (filter (selected p) reads) /\
  (List.length (filter is_unref (trace r))
   + (match snd r with
      | Next _ => List.length (filter_map is_cerr (trace r))
      | Stop _ => 1
      end)
   = List.length reads)%nat.
Proof.
  cbv zeta. unfold trace. revert enc. induction source as [|pkt rest IH]; intros enc.
  - split; reflexivity.
  - assert (forall ready, filter is_unref (fst (receive_loop lib p ready)) = []) as Hu.
    { intros ready. induction ready as [|q r IHq]; [reflexivity|].
      rewrite receive_loop_cons.
      destruct (rescale_source p), (rescale_target p); cbn; auto. }
    pose proof (@receive_loop_silent _ is_cerr lib p) as S1.
    pose proof (@receive_loop_silent _ read_packet lib p) as S2.
    pose proof (@receive_loop_silent _ sent_frame lib p) as S3.
    unfold trace in S1, S2, S3.
    destruct (main_loop_cases lib p pkt rest enc)
      as [[-> Hsel] | [(rc & enc1 & -> & Hsel) | [(rc & enc1 & -> & Hsel & _)
          | (rc & enc1 & -> & Hsel & _)]]];
      unfold trace;
      cbn [fst snd filter_map filter is_cerr read_packet sent_frame is_unref
             List.length map]; rewrite ?Hsel; cbn [map List.length].
    + destruct (IH enc) as [H1 H2]. rewrite H1. split; [reflexivity|]. lia.
    + split; reflexivity.
    + rewrite !filter_map_app, !filter_app, Hu.
      rewrite S1, S2, S3 by reflexivity.
      cbn [app filter_map filter is_cerr read_packet sent_frame is_unref List.length].
      destruct (IH (set_queue enc1 [])) as [H1 H2]. rewrite H1.
      split; [reflexivity|]. lia.
    + rewrite Hu. rewrite S2, S3 by reflexivity.
      split; reflexivity.
Qed.

(** X9: a source without a packet of the selected stream. A run that
    completes setup on such a source never submits a frame, prints no
    error and writes no packet. If the encoder had nothing ready when it
    was opened, the flush finds nothing and the run returns 0; otherwise
    the flush receives the first ready packet and the behaviour of the
    run is undefined from there. *)
Theorem no_selected_packet_run lib argv t p :
  main_setup lib argv = (t, Next p) ->
  (forall pkt,
     In pkt (demux (input_format_context p)) ->
     stream_index pkt <> video_stream_index p) ->
  filter_map sent_frame (trace (main lib argv)) = [] /\
  filter_map written_packet (trace (main lib argv)) = [] /\
  stderr (main lib argv) = [] /\
  match queue (video_encoder_ctx p) with
  | [] =>
      exit_of (main lib argv) = Returned 0 /\
      filter_map received_packet (trace (main lib argv)) = []
  | pkt :: _ =>
      exit_of (main lib argv) = Undefined /\
      filter_map received_packet (trace (main lib argv)) = [pkt]
  end.
Proof.
  intros Hs Hnone.
  pose proof (setup_events_only lib argv) as Hset.
  rewrite Hs in Hset. cbn [trace fst] in Hset.
  destruct (setup_next_quiet _ _ Hs) as [_ Hq].
  destruct (output_has_no_streams _ _ Hs) as [_ Ht].
  destruct (main_loop_none_selected lib p _ (video_encoder_ctx p) Hnone) as [Hl Hn].
  pose proof (teardown_events_only p) as Htd.
  assert (exists tail,
            main lib argv
            = (t ++ trace (main_loop lib p (demux (input_format_context p))
                             (video_encoder_ctx p)) ++ tail,
               match queue (video_encoder_ctx p) with
               | [] => Stop (Returned 0)
               | _ :: _ => Stop Undefined
               end) /\
            tail = match queue (video_encoder_ctx p) with
                   | [] => Ev_avcodec_receive_packet None
                           :: trace (main_teardown p) ++ [success_line]
                   | pkt :: _ => [Ev_avcodec_receive_packet (Some pkt)]
                   end) as (tail & Hm & Htail).
  { eexists. split; [|reflexivity].
    rewrite (main_after_setup _ _ Hs).
    destruct (main_rest_cases lib p) as [[-> (enc & He & Hr)]|[-> H]];
      unfold streaming_events; rewrite Hn in *; cbn [trace fst snd].
    - injection He as <-.
      rewrite (receive_loop_dry lib _ _ Ht) in Hr |- *.
      destruct (queue (video_encoder_ctx p)); [|discriminate Hr].
      cbn [fst]. now rewrite <- !app_assoc.
    - destruct H as [H|(enc & He & Hr)]; [discriminate H|]. injection He as <-.
      rewrite (receive_loop_dry lib _ _ Ht) in Hr |- *.
      destruct (queue (video_encoder_ctx p)); [discriminate Hr|reflexivity]. }
  rewrite Hm. unfold stderr, exit_of, trace in *. cbn [fst snd].
  rewrite !filter_map_app.
  rewrite (filter_map_nil_class sent_frame is_setup_event t),
    (filter_map_nil_class written_packet is_setup_event t),
    (filter_map_nil_class received_packet is_setup_event t),
    (filter_map_nil_class is_cerr quiet t); auto;
    try (intros e He; destruct e; (reflexivity || discriminate He)).
  rewrite (@filter_map_nil_class _ sent_frame (fun e => negb (is_codec_or_mux e)) _
             ltac:(intros e He; destruct e; (reflexivity || discriminate He)) Hl),
    (@filter_map_nil_class _ written_packet (fun e => negb (is_codec_or_mux e)) _
             ltac:(intros e He; destruct e; (reflexivity || discriminate He)) Hl),
    (@filter_map_nil_class _ received_packet (fun e => negb (is_codec_or_mux e)) _
             ltac:(intros e He; destruct e; (reflexivity || discriminate He)) Hl),
    (@filter_map_nil_class _ is_cerr (fun e => negb (is_codec_or_mux e)) _
             ltac:(intros e He; destruct e; (reflexivity || discriminate He)) Hl).
  subst tail.
  destruct (queue (video_encoder_ctx p)) as [|q qs];
    cbn [app filter_map sent_frame written_packet received_packet is_cerr];
    [|repeat split].
  rewrite !filter_map_app.
  rewrite (filter_map_nil_class sent_frame is_teardown_event (fst (main_teardown p))),
    (filter_map_nil_class written_packet is_teardown_event (fst (main_teardown p))),
    (filter_map_nil_class received_packet is_teardown_event (fst (main_teardown p))),
    (filter_map_nil_class is_cerr is_teardown_event (fst (main_teardown p))); auto;
    try (intros e He; destruct e; (reflexivity || discriminate He)).
Qed.

Lemma no_selected_packet_run_witness :
  let source := [Sample.audio_packet; Sample.audio_packet] in
  let r := main (Sample.library (Sample.source source) 0 0 Sample.send_eager)
                (Sample.argv "500") in
  filter_map sent_frame (trace r) = [] /\
  filter_map written_packet (trace r) = [] /\
  stderr r = [] /\
  exit_of r = Returned 0 /\
  filter_map received_packet (trace r) = [].
Proof.
  intros source r.
  apply (@no_selected_packet_run
           (Sample.library (Sample.source source) 0 0 Sample.send_eager)
           (Sample.argv "500")
           (trace (main_setup (Sample.library (Sample.source source) 0 0 Sample.send_eager)
                              (Sample.argv "500")))
           (Sample.pipeline source)).
  - reflexivity.
  - intros pkt [<-|[<-|[]]]; discriminate.
Defined.

(** X10: the result of the lookup of the output stream id stops the run
    only when it is exactly -1: then the run prints its diagnostic as its
    only error line and returns -1. With any other result, a negative one
    included, setup goes on to allocate the packet. *)
Theorem lookup_stops_only_on_minus_one lib argv ctx ty r :
  In (Ev_av_find_best_stream ctx ty r) (trace (main lib argv)) ->
  (r = -1 /\ exit_of (main lib argv) = Returned (-1) /\
   stderr (main lib argv) = ["Failed to find video stream id"])
  \/ (r <> -1 /\ In Ev_av_packet_alloc (trace (main lib argv))).
Proof.
  intros H.
  assert (In (Ev_av_find_best_stream ctx ty r) (trace (main_setup lib argv))) as Hin.
  { destruct (main_trace lib argv) as (rest & Ht & Hrest).
    rewrite Ht in H. apply in_app_or in H. destruct H as [H|H]; [exact H|].
    apply (forallb_In _ _ _ Hrest) in H. discriminate H. }
  destruct (setup_lookup_result _ _ _ _ _ Hin) as [(Hr & Hstop & Herr) | (Hr & Hp)].
  - left. split; [exact Hr|].
    destruct (main_setup lib argv) as [t s] eqn:Hs. cbn [snd trace fst] in *. subst s.
    rewrite (main_stopped _ _ Hs). split; [reflexivity|exact Herr].
  - right. split; [exact Hr|].
    destruct (main_trace lib argv) as (rest & -> & _).
    apply in_or_app. now left.
Qed.

Lemma lookup_stops_only_on_minus_one_witness :
  let r := main (Sample.library (Sample.source []) 0 (-5) Sample.send_eager)
                (Sample.argv "500") in
  (-5 = -1 /\ exit_of r = Returned (-1) /\
   stderr r = ["Failed to find video stream id"])
  \/ (-5 <> -1 /\ In Ev_av_packet_alloc (trace r)).
Proof.
  apply (@lookup_stops_only_on_minus_one
           (Sample.library (Sample.source []) 0 (-5) Sample.send_eager)
           (Sample.argv "500") (mkFormatContext [] 0 None []) AVMEDIA_TYPE_VIDEO (-5)).
  vm_compute. do 8 right. left. reflexivity.
Defined.


(** X12: the loop over two sources in a row, for any state of the
    locals. When the loop over a first source runs to its end, prints no
    error and leaves the encoder in some state, the loop over that source
    followed by a second one does what the first loop did, up to its
    end-of-input read, and then what the loop over the second source does
    from that encoder state. *)
Theorem main_loop_app lib p s1 s2 : forall enc enc1,
  snd (main_loop lib p s1 enc) = Next enc1 ->
  filter_map is_cerr (trace (main_loop lib p s1 enc)) = [] ->
  main_loop lib p (s1 ++ s2) enc
  = (filter (fun e => negb (is_end_of_input e)) (trace (main_loop lib p s1 enc))
       ++ trace (main_loop lib p s2 enc1),
     snd (main_loop lib p s2 enc1)).
Proof.
  induction s1 as [|pkt rest IH]; intros enc enc1.
  - cbn. intros [= ->] _. apply main_loop_eta.
  - cbn [app].
    destruct (stream_index pkt =? video_stream_index p) eqn:H.
    + destruct (avcodec_send_frame lib enc (Some (input_frame p))) as [rc e1] eqn:Hs.
      destruct (rc <? 0) eqn:Hrc.
      * rewrite (@main_loop_break lib p pkt rest enc rc e1 H Hs Hrc).
        cbn. discriminate.
      * destruct (receive_loop_outcome lib p (queue e1)) as [Hr|Hr].
        -- rewrite (@main_loop_encode lib p pkt rest enc rc e1 H Hs Hrc Hr),
             (@main_loop_encode lib p pkt (rest ++ s2) enc rc e1 H Hs Hrc Hr).
           cbn [trace fst snd filter_map is_cerr filter is_end_of_input negb].
           rewrite filter_map_app, filter_app.
           rewrite receive_loop_silent by reflexivity.
           rewrite receive_loop_filter by reflexivity.
           cbn [app filter_map is_cerr filter is_end_of_input negb].
           intros Hn He. rewrite (IH _ _ Hn He). cbn [trace fst snd].
           now rewrite <- !app_assoc.
        -- rewrite (@main_loop_halt lib p pkt rest enc rc e1 _ H Hs Hrc Hr).
           cbn [snd]. discriminate.
    + rewrite (@main_loop_other lib p pkt rest enc H),
        (@main_loop_other lib p pkt (rest ++ s2) enc H).
      cbn [trace fst snd filter_map is_cerr filter is_end_of_input negb].
      intros Hn He. rewrite (IH _ _ Hn He). reflexivity.
Qed.

Lemma main_loop_app_witness :
  let lib := Sample.library (Sample.source []) 0 0 Sample.send_buffering in
  let p := Sample.pipeline [] in
  let enc := video_encoder_ctx p in
  let enc1 := mkCodecContext Sample.h264 500000 640 480 [] [Sample.blank_frame] in
  snd (main_loop lib p [Sample.video_packet] enc) = Next enc1 /\
  main_loop lib p ([Sample.video_packet] ++ [Sample.audio_packet; Sample.video_packet]) enc
  = (filter (fun e => negb (is_end_of_input e))
       (trace (main_loop lib p [Sample.video_packet] enc))
       ++ trace (main_loop lib p [Sample.audio_packet; Sample.video_packet] enc1),
     snd (main_loop lib p [Sample.audio_packet; Sample.video_packet] enc1)).
Proof.
  intros lib p enc enc1.
  assert (snd (main_loop lib p [Sample.video_packet] enc) = Next enc1) as Hn
    by reflexivity.
  split; [exact Hn|].
  apply (@main_loop_app lib p [Sample.video_packet]
           [Sample.audio_packet; Sample.video_packet] enc enc1 Hn).
  reflexivity.
Defined.
